(** * The [tx] command of chia-blockchain: assembling unsigned spend bundles

    A shallow embedding of [src/cmds/tx.py]: the condition encoder
    [make_solution], the assembler [create_unsigned_transaction], the
    parser [create_unsigned_tx_from_json] and the hex codec
    [encode_spendbundle] / [decode_spendbundle], with the byte form of a
    spend bundle that the codec relies on.

    Python exceptions are values of [exn] carried by the [result] monad.
    The list object that the caller hands to [create_unsigned_transaction]
    is mutable, so the assembler returns the contents of the argument
    objects after the call next to its result.  Calls to [print] write to
    the terminal only and are left out. *)

From Stdlib Require Import ZArith List String Ascii Strings.Byte Bool Lia.
Import ListNotations.
Local Open Scope string_scope.
Local Open Scope list_scope.
Local Open Scope Z_scope.

Set Warnings "-register-all".

(** ** Exceptions and the error monad *)

(** One constructor per raise site of [tx.py], plus the exceptions Python
    itself raises on a bad subscript, attribute or operand, plus [Raised]
    for an exception coming out of an imported helper. *)
Inductive exn : Type :=
| ValueError_no_inputs                         (* line 85 *)
| AssertionError_inputs                        (* line 86 *)
| ValueError_amounts (input_value sent_value : Z)   (* lines 98-102 *)
| AssertionError_fee                           (* line 46 *)
| AssertionError_origin_puzzle                 (* line 110 *)
| AssertionError_puzzle_reveal                 (* line 158 *)
| AttributeError (cls attr : string)
| KeyError (key : string)
| TypeError
| ValueError_fromhex
| IndexError
| Raised (helper : string).

Inductive result (A : Type) : Type :=
| Ok (a : A)
| Err (e : exn).
Arguments Ok {A} a.
Arguments Err {A} e.

Definition bind {A B} (m : result A) (k : A -> result B) : result B :=
  match m with
  | Ok a => k a
  | Err e => Err e
  end.

Declare Scope py_scope.
Delimit Scope py_scope with py.
Notation "x <- m ;; k" := (bind m (fun x => k))
  (at level 61, m at next level, right associativity) : py_scope.
Notation "'assert' c 'orelse' e ;; k" := (if c then k else Err e)
  (at level 61, c at next level, e at next level, right associativity) : py_scope.
Local Open Scope py_scope.

Definition is_ok {A} (m : result A) : bool :=
  match m with Ok _ => true | Err _ => false end.

(** A list comprehension whose element expression can raise: elements are
    evaluated left to right and the first exception ends the comprehension. *)
Fixpoint mapM {A B} (f : A -> result B) (l : list A) : result (list B) :=
  match l with
  | [] => Ok []
  | a :: l' => b <- f a ;; bs <- mapM f l' ;; Ok (b :: bs)
  end.

(** ** Bytes *)

Definition bytes := list byte.

Fixpoint bytes_eqb (a b : bytes) : bool :=
  match a, b with
  | [], [] => true
  | x :: a', y :: b' => Byte.eqb x y && bytes_eqb a' b'
  | _, _ => false
  end.

(** ** Python values, as [json.loads] produces them

    JSON numbers with a fraction or an exponent (Python floats) are not
    modelled.  A [VDict] lists its items in insertion order with distinct
    keys, which is what [json.loads] builds. *)
Inductive value : Type :=
| VNone
| VBool (b : bool)
| VInt (z : Z)
| VStr (s : string)
| VList (l : list value)
| VDict (d : list (string * value)).

Fixpoint lookup (k : string) (d : list (string * value)) : option value :=
  match d with
  | [] => None
  | (k', v) :: d' => if String.eqb k k' then Some v else lookup k d'
  end.

Definition has_key (k : string) (d : list (string * value)) : bool :=
  match lookup k d with Some _ => true | None => false end.

(** [v[k]] for a string key [k]. *)
Definition getitem (v : value) (k : string) : result value :=
  match v with
  | VDict d => match lookup k d with Some x => Ok x | None => Err (KeyError k) end
  | _ => Err TypeError
  end.

Fixpoint chars (s : string) : list value :=
  match s with
  | EmptyString => []
  | String c s' => VStr (String c EmptyString) :: chars s'
  end.

(** [k in v] for a string [k]: key test on a dict, membership on a list,
    substring test on a string, [TypeError] on anything else. *)
Definition contains (k : string) (v : value) : result bool :=
  match v with
  | VDict d => Ok (has_key k d)
  | VList l =>
      Ok (existsb (fun x => match x with VStr s => String.eqb s k | _ => false end) l)
  | VStr s => Ok (match index 0 k s with Some _ => true | None => false end)
  | _ => Err TypeError
  end.

(** [for s in v]: the elements of a list, the keys of a dict, the
    characters of a string. *)
Definition iter (v : value) : result (list value) :=
  match v with
  | VList l => Ok l
  | VDict d => Ok (map (fun kv => VStr (fst kv)) d)
  | VStr s => Ok (chars s)
  | _ => Err TypeError
  end.

(** The integer a value contributes to [sum] or [+]; [bool] is a subclass
    of [int] in Python. *)
Definition as_int (v : value) : result Z :=
  match v with
  | VInt z => Ok z
  | VBool b => Ok (Z.b2z b)
  | _ => Err TypeError
  end.

(** [sum(l)]: starts from 0 and adds from left to right.  Python integers
    are unbounded, so nothing wraps. *)
Definition py_sum (l : list value) : result Z :=
  fold_left (fun acc v => a <- acc ;; z <- as_int v ;; Ok (a + z)) l (Ok 0).

(** ** Programs, coins, conditions *)

(** A CLVM program value: an atom or a pair. *)
Inductive SExp : Type :=
| Atom (bs : bytes)
| Pair (a b : SExp).

Definition Program := SExp.

(** [Program.to([p1, ..., pn])]: the nil-terminated list of the items. *)
Definition Program_to (items : list Program) : Program :=
  fold_right Pair (Atom []) items.

(** Modelled from the spec: the class [Coin] ([src/types/coin.py] is
    missing), a frozen record of parent id, puzzle hash and amount, built
    positionally as [Coin(parent, puzzle_hash, amount)].  The fields hold
    what the caller passed.  The coins of the data model, with hashes of
    32 bytes and an integer amount that fits 64 bits, are those the
    statements below name with [valid_coin], [input_amounts] and
    [request_amounts]. *)
Record Coin : Type := mkCoin {
  parent_coin_info : bytes;
  puzzle_hash : bytes;
  amount : value
}.

Record SpendRequest : Type := mkSpendRequest {
  sr_puzzle_hash : bytes;
  sr_amount : value
}.

(** The dict [{"puzzlehash": ..., "amount": ...}] built on line 96. *)
Record Primary : Type := mkPrimary {
  puzzlehash : bytes;
  primary_amount : value
}.

(** Modelled from the spec: the conditions that the [make_*_condition]
    helpers of [src/wallet/puzzles/puzzle_utils.py] (missing) build, one
    tagged variant per helper, holding the helper's arguments. *)
Inductive Condition : Type :=
| CreateCoin (ph : bytes) (amt : value)
| AssertCoinConsumed (coin_id : bytes)
| AssertTimeExceeds (time : Z)
| AssertMyCoinId (id : bytes)
| AssertFee (fee : Z).

Definition make_create_coin_condition := CreateCoin.
Definition make_assert_coin_consumed_condition := AssertCoinConsumed.
Definition make_assert_time_exceeds_condition := AssertTimeExceeds.
Definition make_assert_my_coin_id_condition := AssertMyCoinId.
Definition make_assert_fee_condition := AssertFee.

Record CoinSolution : Type := mkCoinSolution {
  cs_coin : Coin;
  cs_solution : Program
}.

(** ** Imported helpers

    What [tx.py] imports and this development leaves open: the BLS group
    elements, the standard puzzle, the tree hash, the hex and CLVM readers,
    the JSON reader and the byte form of a spend bundle. *)
Class Helpers : Type := {
  G1Element : Type;
  G2Element : Type;
  G2Element_infinity : G2Element;
  G1Element_from_bytes : bytes -> result G1Element;
  hexstr_to_bytes : value -> result bytes;
  uint64 : value -> result Z;
  binutils_assemble : value -> result SExp;
  puzzle_for_pk : G1Element -> Program;
  solution_for_conditions : list Condition -> Program;
  get_tree_hash : Program -> bytes;
  json_loads : string -> result value
}.

(** The dict [{"coin": ..., "pubkey": ...}] of one input, as the parser
    builds it on lines 135-142: an item with both entries.  A dict that
    lacks one of them is not an [Input]. *)
Record Input `{Helpers} : Type := mkInput {
  coin : Coin;
  pubkey : G1Element
}.
Arguments mkInput {_} coin pubkey.

Record SpendBundle `{Helpers} : Type := mkSpendBundle {
  coin_solutions : list CoinSolution;
  aggregated_signature : G2Element
}.
Arguments mkSpendBundle {_} coin_solutions aggregated_signature.

(** ** [make_solution] (lines 45-63) *)

(** A dict with byte-string values, the shape of the [me] argument. *)
Definition bdict := list (string * bytes).

Fixpoint bdict_get (k : string) (d : bdict) : option bytes :=
  match d with
  | [] => None
  | (k', v) :: d' => if String.eqb k k' then Some v else bdict_get k d'
  end.

(** Truth value of an optional list or dict: [None] and the empty
    container are false. *)
Definition truthy {A} (o : option (list A)) : bool :=
  match o with
  | Some (_ :: _) => true
  | _ => false
  end.

(** [l.append(a)]. *)
Definition list_append {A} (l : list A) (a : A) : list A := l ++ [a].

(** Lines 46-61: the list that line 63 hands to [solution_for_conditions]. *)
Definition make_solution_conditions
    (primaries : option (list Primary)) (min_time : Z) (me : option bdict)
    (consumed : option (list bytes)) (fee : Z) : result (list Condition) :=
  assert (fee >=? 0) orelse AssertionError_fee ;;
  let condition_list := [] in
  let condition_list :=
    if truthy primaries then
      fold_left (fun cl primary =>
                   list_append cl (make_create_coin_condition
                                primary.(puzzlehash) primary.(primary_amount)))
                (match primaries with Some l => l | None => [] end) condition_list
    else condition_list in
  let condition_list :=
    if truthy consumed then
      fold_left (fun cl c => list_append cl (make_assert_coin_consumed_condition c))
                (match consumed with Some l => l | None => [] end) condition_list
    else condition_list in
  let condition_list :=
    if min_time >? 0
    then list_append condition_list (make_assert_time_exceeds_condition min_time)
    else condition_list in
  condition_list <-
    (if truthy me then
       match bdict_get "id" (match me with Some d => d | None => [] end) with
       | Some id => Ok (list_append condition_list (make_assert_my_coin_id_condition id))
       | None => Err (KeyError "id")
       end
     else Ok condition_list) ;;
  let condition_list :=
    if negb (fee =? 0)
    then list_append condition_list (make_assert_fee_condition fee)
    else condition_list in
  Ok condition_list.

Definition make_solution `{Helpers}
    (primaries : option (list Primary)) (min_time : Z) (me : option bdict)
    (consumed : option (list bytes)) (fee : Z) : result Program :=
  condition_list <- make_solution_conditions primaries min_time me consumed fee ;;
  Ok (solution_for_conditions condition_list).

(** ** [create_unsigned_transaction] (lines 75-124) *)

Section Assembler.
Context `{Helpers}.

(** [l.pop()]: removes the last item of the list object and returns it. *)
Definition pop {A} (l : list A) : option (A * list A) :=
  match rev l with
  | [] => None
  | a :: r => Some (a, rev r)
  end.

(** [coin.pubkey] on line 120.  [coin] is [i["coin"]], a [Coin]; the class
    has the three attributes of the record above and no [pubkey], so the
    attribute access raises. *)
Definition Coin_pubkey (c : Coin) : result G1Element :=
  Err (AttributeError "Coin" "pubkey").

(** Lines 116-122: the loop over what is left of [inputs] after the pop. *)
Fixpoint spend_remaining (inputs : list Input) (spends : list CoinSolution)
  : result (list CoinSolution) :=
  match inputs with
  | [] => Ok spends
  | i :: inputs' =>
      let coin := i.(coin) in
      solution <- make_solution None 0 None None 0 ;;
      pk <- Coin_pubkey coin ;;
      let puzzle := puzzle_for_pk pk in
      let puzzle_solution_pair := Program_to [puzzle; solution] in
      spend_remaining inputs'
        (list_append spends (mkCoinSolution coin puzzle_solution_pair))
  end.

(** Lines 90-124, after the pop: [origin] is the popped item and [inputs]
    what the list object holds now. *)
Definition assemble (origin : Input) (inputs : list Input)
    (spend_requests : option (list SpendRequest)) (validate : bool)
  : result (list CoinSolution) :=
  let outputs := [] in
  others <- py_sum (map (fun i => i.(coin).(amount)) inputs) ;;
  origin_amount <- as_int origin.(coin).(amount) ;;
  let input_value := others + origin_amount in
  sent_outputs <-
    match spend_requests with
    | Some reqs =>
        sent_value <- py_sum (map sr_amount reqs) ;;
        Ok (sent_value,
            fold_left (fun o request =>
                         list_append o (mkPrimary request.(sr_puzzle_hash)
                                             request.(sr_amount)))
                      reqs outputs)
    | None => Ok (0, outputs)
    end ;;
  let sent_value := fst sent_outputs in
  let outputs := snd sent_outputs in
  assert negb (validate && (sent_value >=? input_value))
    orelse ValueError_amounts input_value sent_value ;;
  let spends := [] in
  let origin_puzzle := puzzle_for_pk origin.(pubkey) in
  assert bytes_eqb (get_tree_hash origin_puzzle) origin.(coin).(puzzle_hash)
    orelse AssertionError_origin_puzzle ;;
  solution <- make_solution (Some outputs) 0 None None 0 ;;
  let puzzle_solution_pair := Program_to [origin_puzzle; solution] in
  let spends := list_append spends (mkCoinSolution origin.(coin) puzzle_solution_pair) in
  spend_remaining inputs spends.

(** The two argument objects as the caller sees them. *)
Definition arguments : Type :=
  (option (list Input) * option (list SpendRequest))%type.

(** The call: its outcome, and the argument objects after it. *)
Definition create_unsigned_transaction
    (inputs : option (list Input))
    (spend_requests : option (list SpendRequest)) (validate : bool)
  : result (list CoinSolution) * arguments :=
  match inputs with
  | None => (Err ValueError_no_inputs, (inputs, spend_requests))
  | Some l =>
      if (List.length l <? 1)%nat
      then (Err ValueError_no_inputs, (inputs, spend_requests))
      else if negb (0 <? List.length l)%nat
      then (Err AssertionError_inputs, (inputs, spend_requests))
      else
        match pop l with
        | None => (Err IndexError, (inputs, spend_requests))
        | Some (origin, l') =>
            (assemble origin l' spend_requests validate,
             (Some l', spend_requests))
        end
  end.

(** ** [create_unsigned_tx_from_json] (lines 127-165) *)

(** Lines 135-142: one element of the [input_coins] comprehension. *)
Definition input_of_json (i : value) : result Input :=
  c <- getitem i "coin" ;;
  parent_id <- getitem c "parent_id" ;;
  parent <- hexstr_to_bytes parent_id ;;
  c <- getitem i "coin" ;;
  ph_hex <- getitem c "puzzle_hash" ;;
  ph <- hexstr_to_bytes ph_hex ;;
  c <- getitem i "coin" ;;
  amt <- getitem c "amount" ;;
  pk_hex <- getitem i "pubkey" ;;
  pk_bytes <- hexstr_to_bytes pk_hex ;;
  pk <- G1Element_from_bytes pk_bytes ;;
  Ok (mkInput (mkCoin parent ph amt) pk).

(** Line 146: one element of the [spend_requests] comprehension. *)
Definition spend_request_of_json (s : value) : result SpendRequest :=
  ph_hex <- getitem s "puzzle_hash" ;;
  ph <- hexstr_to_bytes ph_hex ;;
  amt <- getitem s "amount" ;;
  Ok (mkSpendRequest ph amt).

(** Lines 132-150: an entry that has the key [spend_requests].  The two
    lists handed to the assembler are fresh objects that nothing reads
    afterwards. *)
Definition descriptive_form (s : value) : result (list CoinSolution) :=
  input_coins_json <- getitem s "input_coins" ;;
  spend_requests_json <- getitem s "spend_requests" ;;
  coins <- iter input_coins_json ;;
  input_coins <- mapM input_of_json coins ;;
  reqs <- iter spend_requests_json ;;
  spend_requests <- mapM spend_request_of_json reqs ;;
  fst (create_unsigned_transaction (Some input_coins) (Some spend_requests) true).

(** Lines 152-162: an entry that has the key [solution]. *)
Definition raw_form (s : value) : result CoinSolution :=
  c <- getitem s "input_coin" ;;
  parent_id <- getitem c "parent_id" ;;
  parent <- hexstr_to_bytes parent_id ;;
  c <- getitem s "input_coin" ;;
  ph_hex <- getitem c "puzzle_hash" ;;
  ph <- hexstr_to_bytes ph_hex ;;
  c <- getitem s "input_coin" ;;
  amt_json <- getitem c "amount" ;;
  amt <- uint64 amt_json ;;
  let input_coin := mkCoin parent ph (VInt amt) in
  reveal_text <- getitem s "puzzle_reveal" ;;
  puzzle_reveal <- binutils_assemble reveal_text ;;
  assert bytes_eqb (get_tree_hash puzzle_reveal) input_coin.(puzzle_hash)
    orelse AssertionError_puzzle_reveal ;;
  solution_text <- getitem s "solution" ;;
  solution <- binutils_assemble solution_text ;;
  Ok (mkCoinSolution input_coin (Program_to [puzzle_reveal; solution])).

(** Lines 130-162: the loop over [j["spends"]]. *)
Fixpoint spend_entries (entries : list value) (spends : list CoinSolution)
  : result (list CoinSolution) :=
  match entries with
  | [] => Ok spends
  | s :: entries' =>
      is_descriptive <- contains "spend_requests" s ;;
      if is_descriptive : bool then
        more <- descriptive_form s ;;
        spend_entries entries' (spends ++ more)
      else
        is_raw <- contains "solution" s ;;
        if is_raw : bool then
          one <- raw_form s ;;
          spend_entries entries' (list_append spends one)
        else spend_entries entries' spends
  end.

(** Lines 129-165, on the value that [json.loads] returned. *)
Definition spend_bundle_of_json (j : value) : result SpendBundle :=
  let spends := [] in
  spends_json <- getitem j "spends" ;;
  entries <- iter spends_json ;;
  spends <- spend_entries entries spends ;;
  let spend_bundle := mkSpendBundle spends G2Element_infinity in
  Ok spend_bundle.

Definition create_unsigned_tx_from_json (json_tx : string) : result SpendBundle :=
  j <- json_loads json_tx ;;
  spend_bundle_of_json j.

End Assembler.

(** ** [encode_spendbundle] and [decode_spendbundle] (lines 200-205) *)

(** [bytes.hex()]: two lowercase hexadecimal digits per byte. *)
Definition hex_digit (n : N) : ascii :=
  nth (N.to_nat n) (list_ascii_of_string "0123456789abcdef") "0"%char.

Fixpoint hex (bs : bytes) : string :=
  match bs with
  | [] => EmptyString
  | b :: bs' =>
      let n := Byte.to_N b in
      String (hex_digit (n / 16)) (String (hex_digit (n mod 16)) (hex bs'))
  end.

Definition hex_value (c : ascii) : option N :=
  let n := N_of_ascii c in
  if ((48 <=? n) && (n <=? 57))%N then Some (n - 48)%N
  else if ((97 <=? n) && (n <=? 102))%N then Some (n - 87)%N
  else if ((65 <=? n) && (n <=? 70))%N then Some (n - 55)%N
  else None.

Definition is_space (c : ascii) : bool :=
  let n := N_of_ascii c in
  (((9 <=? n) && (n <=? 13)) || (n =? 32))%N.

Definition byte_of_nibbles (top bot : N) : byte :=
  match Byte.of_N (16 * top + bot) with
  | Some b => b
  | None => x00
  end.

(** [bytes.fromhex(s)]: whitespace between bytes is skipped, each byte is
    two hexadecimal digits of either case, anything else is a
    [ValueError]. *)
Fixpoint fromhex (s : string) : result bytes :=
  match s with
  | EmptyString => Ok []
  | String c s' =>
      if is_space c then fromhex s'
      else
        match s' with
        | EmptyString => Err ValueError_fromhex
        | String d s'' =>
            match hex_value c, hex_value d with
            | Some top, Some bot =>
                bs <- fromhex s'' ;; Ok (byte_of_nibbles top bot :: bs)
            | _, _ => Err ValueError_fromhex
            end
        end
  end.

(** The byte form of a spend bundle ([bytes(b)] and
    [SpendBundle.from_bytes], which the class gets from [Streamable];
    neither is in this file). *)
Class Streamable `{Helpers} : Type := {
  SpendBundle_bytes : SpendBundle -> result bytes;
  SpendBundle_from_bytes : bytes -> result SpendBundle
}.

Section Codec.
Context `{Streamable}.

Definition encode_spendbundle (spend_bundle : SpendBundle) : result string :=
  bs <- SpendBundle_bytes spend_bundle ;;
  Ok (hex bs).

Definition decode_spendbundle (spend_bundle_bytes : string) : result SpendBundle :=
  bs <- fromhex spend_bundle_bytes ;;
  SpendBundle_from_bytes bs.

End Codec.

(** ** The byte form of a spend bundle *)

Definition byte_of_Z (z : Z) : byte :=
  match Byte.of_N (Z.to_N (z mod 256)) with Some b => b | None => x00 end.

(** The [n] low-order bytes of [z], most significant first. *)
Fixpoint big_endian (n : nat) (z : Z) : bytes :=
  match n with
  | O => []
  | S n' => big_endian n' (z / 256) ++ [byte_of_Z z]
  end.

Definition of_big_endian (bs : bytes) : Z :=
  fold_left (fun acc b => 256 * acc + Z.of_N (Byte.to_N b)) bs 0.

(** The first [n] bytes and the rest, when there are that many. *)
Definition take (what : string) (n : nat) (bs : bytes) : result (bytes * bytes) :=
  if (n <=? List.length bs)%nat then Ok (firstn n bs, skipn n bs)
  else Err (Raised what).

(** The byte conventions of the collaborators: how a program and a
    signature are written and read.  Reading a program returns what
    follows it. *)
Class Wire `{Helpers} : Type := {
  Program_bytes : Program -> bytes;
  Program_read : bytes -> result (Program * bytes);
  G2Element_bytes : G2Element -> bytes;
  G2Element_from_bytes : bytes -> result G2Element
}.

Section WireFormat.
Context `{Wire}.

(** Modelled from the spec: the byte form of a coin solution, which
    [Streamable] ([src/util/streamable.py], missing) derives from the
    class: the coin's three fields, parent id and puzzle hash on 32 bytes
    each and the amount as an unsigned 64-bit integer (taken most
    significant byte first), then the encoding of the program. *)
Definition CoinSolution_bytes (cs : CoinSolution) : result bytes :=
  let c := cs.(cs_coin) in
  assert ((List.length c.(parent_coin_info) =? 32)%nat
          && (List.length c.(puzzle_hash) =? 32)%nat)%bool
    orelse Raised "bytes32" ;;
  amt <- match c.(amount) with
         | VInt z => if ((0 <=? z) && (z <? 2 ^ 64))%bool then Ok z
                     else Err (Raised "uint64")
         | _ => Err (Raised "uint64")
         end ;;
  Ok (c.(parent_coin_info) ++ c.(puzzle_hash) ++ big_endian 8 amt
      ++ Program_bytes cs.(cs_solution)).

(** Modelled from the spec: [bytes(spend_bundle)] ([Streamable], missing):
    the coin solutions one after the other, followed by the aggregated
    signature on 96 bytes; nothing else. *)
Definition SpendBundle_to_bytes (b : SpendBundle) : result bytes :=
  items <- mapM CoinSolution_bytes b.(coin_solutions) ;;
  let signature := G2Element_bytes b.(aggregated_signature) in
  assert (List.length signature =? 96)%nat orelse Raised "G2Element" ;;
  Ok (List.concat items ++ signature).

Definition CoinSolution_read (bs : bytes) : result (CoinSolution * bytes) :=
  parent_rest <- take "from_bytes" 32 bs ;;
  ph_rest <- take "from_bytes" 32 (snd parent_rest) ;;
  amount_rest <- take "from_bytes" 8 (snd ph_rest) ;;
  program_rest <- Program_read (snd amount_rest) ;;
  Ok (mkCoinSolution
        (mkCoin (fst parent_rest) (fst ph_rest)
                (VInt (of_big_endian (fst amount_rest))))
        (fst program_rest),
      snd program_rest).

(** Coin solutions are read until the 96 bytes of the signature are what
    is left; each takes at least one of the [fuel] bytes. *)
Fixpoint CoinSolutions_read (fuel : nat) (bs : bytes)
  : result (list CoinSolution * bytes) :=
  if (List.length bs =? 96)%nat then Ok ([], bs)
  else
    match fuel with
    | O => Err (Raised "from_bytes")
    | S fuel' =>
        cs_rest <- CoinSolution_read bs ;;
        l_rest <- CoinSolutions_read fuel' (snd cs_rest) ;;
        Ok (fst cs_rest :: fst l_rest, snd l_rest)
    end.

(** Modelled from the spec: [SpendBundle.from_bytes] ([Streamable],
    missing), the reader of the byte form above; bytes that are not such
    a form are an error, not a partial bundle. *)
Definition SpendBundle_of_bytes (bs : bytes) : result SpendBundle :=
  l_rest <- CoinSolutions_read (List.length bs) bs ;;
  signature <- G2Element_from_bytes (snd l_rest) ;;
  Ok (mkSpendBundle (fst l_rest) signature).

Definition wire_streamable : Streamable :=
  Build_Streamable _ SpendBundle_to_bytes SpendBundle_of_bytes.

End WireFormat.

(** ** The command line (lines 172-303)

    [handler] and the functions it calls print, talk to the wallet and
    leave through [parser.exit].  A run is modelled by the events it
    produces, in order, and by how it ends.  The events are those of
    lines 223-303 themselves; what the parser and the assembler print
    while they work is not recorded. *)

Definition command_list : list string :=
  ["create"; "verify"; "sign"; "push"; "encode"; "decode"; "view-coins";
   "get-address"].

(** The wallet service behind [WalletRpcClient] and the two CLVM helpers
    that [view_coins] uses: what each call answers, or the exception it
    raises. *)
Class Wallet `{Helpers} : Type := {
  WalletRpcClient_create : result unit;
  sign_spend_bundle : string -> result string;
  push_spend_bundle : string -> result unit;
  get_spendable_coins : result (list value);
  Program_from_bytes : bytes -> result Program;
  binutils_disassemble : Program -> string
}.

Inductive event `{Helpers} : Type :=
| HelpPrinted                          (* help_message() *)
| Printed (line : string)              (* print of a string *)
| ValuePrinted (v : value)             (* print(coin) *)
| BundlePrinted (b : SpendBundle)      (* print(sb) *)
| Debugged (b : SpendBundle)           (* debug_spend_bundle(b) *)
| Connecting                           (* WalletRpcClient.create(...) *)
| SignRequested (hex : string)         (* wrpc.sign_spend_bundle(hex) *)
| PushRequested (hex : string)         (* wrpc.push_spend_bundle(hex) *)
| CoinsRequested                       (* wrpc.get_spendable_coins(1) *)
| Closed.                              (* wrpc.close() *)

(** How a run stops short: [parser.exit(status)], or an exception. *)
Inductive halt : Type :=
| Exited (status : Z)
| Failed (e : exn).

(** A run: its events, and its value or the way it stopped. *)
Definition io `{Helpers} (A : Type) : Type := (list event * (A + halt))%type.

Section CommandLine.
Context {H : Helpers} {S : Streamable} {W : Wallet}.

Definition io_ret {A} (a : A) : io A := ([], inl a).

(** The events of [m], then those of [k] on the value of [m], if [m] got
    that far. *)
Definition io_bind {A B} (m : io A) (k : A -> io B) : io B :=
  (fst m ++ match snd m with
            | inl a => fst (k a)
            | inr _ => []
            end,
   match snd m with
   | inl a => snd (k a)
   | inr h => inr h
   end).

Definition emit (e : event) : io unit := ([e], inl tt).

(** [parser.exit(status)] ends the run. *)
Definition parser_exit {A} (status : Z) : io A := ([], inr (Exited status)).

Definition lift {A} (r : result A) : io A :=
  match r with
  | Ok a => ([], inl a)
  | Err e => ([], inr (Failed e))
  end.

Notation "x <~ m ;; k" := (io_bind m (fun x => k))
  (at level 61, m at next level, right associativity).
Notation "m ;;; k" := (io_bind m (fun _ => k))
  (at level 61, right associativity).

(** Lines 250-253. *)
Definition fail_cmd {A} (msg : string) : io A :=
  emit (Printed (String "010"%char msg)) ;;;
  emit HelpPrinted ;;;
  parser_exit 1.

(** Lines 256-260. *)
Definition sign_spendbundle (spend_bundle : SpendBundle) : io SpendBundle :=
  emit Connecting ;;;
  lift WalletRpcClient_create ;;;
  bs <~ lift (SpendBundle_bytes spend_bundle) ;;
  emit (SignRequested (hex bs)) ;;;
  signed_spend_bundle <~ lift (sign_spend_bundle (hex bs)) ;;
  sb <~ lift (decode_spendbundle signed_spend_bundle) ;;
  emit (Debugged sb) ;;;
  lift (decode_spendbundle signed_spend_bundle).

(** Lines 231-235. *)
Definition push_spendbundle (spend_bundle : SpendBundle) : io unit :=
  emit Connecting ;;;
  lift WalletRpcClient_create ;;;
  bs <~ lift (SpendBundle_bytes spend_bundle) ;;
  emit (PushRequested (hex bs)) ;;;
  lift (push_spend_bundle (hex bs)) ;;;
  emit Closed.

(** Lines 242-245: the loop over the coins. *)
Fixpoint view_each (coins : list value) : io unit :=
  match coins with
  | [] => io_ret tt
  | coin :: coins' =>
      emit (ValuePrinted coin) ;;;
      puzzle <~ lift (getitem coin "puzzle") ;;
      bs <~ lift (match puzzle with
                  | VStr s => fromhex s
                  | _ => Err TypeError
                  end) ;;
      program <~ lift (Program_from_bytes bs) ;;
      emit (Printed (binutils_disassemble program)) ;;;
      emit (Printed "") ;;;
      view_each coins'
  end.

(** Lines 238-247; the argument is not used. *)
Definition view_coins (args : list string) : io unit :=
  emit Connecting ;;;
  lift WalletRpcClient_create ;;;
  emit CoinsRequested ;;;
  coins <~ lift get_spendable_coins ;;
  emit (Printed "") ;;;
  view_each coins ;;;
  emit Closed.

Definition first_arg (cmd_args : list string) : io string :=
  match cmd_args with
  | a :: _ => io_ret a
  | [] => lift (Err IndexError)
  end.

(** Lines 263-303.  [args.command] and [args.cmd_args] are the two
    arguments; [parser.exit(None)] after [view_coins] is exit status 0. *)
Definition handler (command : string) (cmd_args : option (list string)) : io unit :=
  (if negb (existsb (String.eqb command) command_list)
   then emit HelpPrinted ;;; parser_exit 1
   else io_ret tt) ;;;
  cmd_args <~
    match cmd_args with
    | None =>
        fail_cmd ("Too few arguments to command 'chia tx " ++ command ++ "'")
    | Some l =>
        if (List.length l <? 1)%nat
        then fail_cmd ("Too few arguments to command 'chia tx " ++ command ++ "'")
        else io_ret l
    end ;;
  (if (1 <? List.length cmd_args)%nat
   then fail_cmd ("Too many arguments to command 'chia tx " ++ command ++ "'")
   else io_ret tt) ;;;
  if String.eqb command "create" then
    json_tx <~ first_arg cmd_args ;;
    spend_bundle <~ lift (create_unsigned_tx_from_json json_tx) ;;
    emit (Debugged spend_bundle) ;;;
    bs <~ lift (SpendBundle_bytes spend_bundle) ;;
    emit (Printed (hex bs))
  else if String.eqb command "verify" then
    emit (Printed "")
  else if String.eqb command "sign" then
    json_tx <~ first_arg cmd_args ;;
    spend_bundle <~ lift (create_unsigned_tx_from_json json_tx) ;;
    signed_sb <~ sign_spendbundle spend_bundle ;;
    emit (Debugged signed_sb)
  else if String.eqb command "push" then
    json_tx <~ first_arg cmd_args ;;
    spend_bundle <~ lift (create_unsigned_tx_from_json json_tx) ;;
    signed_sb <~ sign_spendbundle spend_bundle ;;
    emit (Debugged signed_sb) ;;;
    push_spendbundle signed_sb
  else if String.eqb command "encode" then
    io_ret tt
  else if String.eqb command "decode" then
    arg <~ first_arg cmd_args ;;
    sb <~ lift (decode_spendbundle arg) ;;
    emit (Debugged sb) ;;;
    emit (BundlePrinted sb)
  else if String.eqb command "view-coins" then
    view_coins cmd_args ;;;
    parser_exit 0
  else
    emit (Printed ("command '" ++ command ++ "' is not recognised")) ;;;
    parser_exit 1.

End CommandLine.
(** ** A small instance of the helpers

    Stand-ins for the imported helpers, small enough to run the model on
    examples: keys and signatures are byte strings, the tree hash is a
    flat listing of the program, and [json_loads] reads objects, arrays,
    strings without escapes, integers, [true], [false] and [null]. *)
Module Sample.

Definition hexstr_to_bytes (v : value) : result bytes :=
  match v with
  | VStr s =>
      if (prefix "0x" s || prefix "0X" s)%bool
      then fromhex (substring 2 (String.length s - 2) s)
      else fromhex s
  | _ => Err (AttributeError "object" "startswith")
  end.

Definition uint64 (v : value) : result Z :=
  z <- as_int v ;;
  if ((0 <=? z) && (z <? 2 ^ 64))%bool then Ok z else Err (Raised "uint64").

Definition binutils_assemble (v : value) : result SExp :=
  match v with
  | VStr s => bs <- fromhex s ;; Ok (Atom bs)
  | _ => Err TypeError
  end.

Fixpoint tree_hash (p : SExp) : bytes :=
  match p with
  | Atom bs => x01 :: bs
  | Pair a b => x02 :: tree_hash a ++ tree_hash b
  end.

Definition puzzle_for_pk (pk : bytes) : Program := Pair (Atom [x02]) (Atom pk).

Definition int_atom (v : value) : SExp :=
  match as_int v with
  | Ok z => Atom (big_endian 8 z)
  | Err _ => Atom []
  end.

Definition condition_program (c : Condition) : Program :=
  match c with
  | CreateCoin ph amt => Program_to [Atom [x33]; Atom ph; int_atom amt]
  | AssertCoinConsumed id => Program_to [Atom [x34]; Atom id]
  | AssertTimeExceeds t => Program_to [Atom [x36]; Atom (big_endian 8 t)]
  | AssertMyCoinId id => Program_to [Atom [x35]; Atom id]
  | AssertFee f => Program_to [Atom [x38]; Atom (big_endian 8 f)]
  end.

Definition solution_for_conditions (cl : list Condition) : Program :=
  Program_to (map condition_program cl).

(** *** Reading JSON text *)

Definition dquote : ascii := "034"%char.

Fixpoint skip_spaces (s : string) : string :=
  match s with
  | String c s' => if is_space c then skip_spaces s' else s
  | EmptyString => s
  end.

(** The characters up to the closing quote, and what follows it. *)
Fixpoint read_string (s : string) : option (string * string) :=
  match s with
  | EmptyString => None
  | String c s' =>
      if Ascii.eqb c dquote then Some (EmptyString, s')
      else if Ascii.eqb c "\"%char then None
      else match read_string s' with
           | Some (body, rest) => Some (String c body, rest)
           | None => None
           end
  end.

Definition digit_value (c : ascii) : option Z :=
  let n := N_of_ascii c in
  if ((48 <=? n) && (n <=? 57))%N then Some (Z.of_N (n - 48)) else None.

Fixpoint read_digits (s : string) (acc : Z) : Z * string :=
  match s with
  | String c s' =>
      match digit_value c with
      | Some d => read_digits s' (10 * acc + d)
      | None => (acc, s)
      end
  | EmptyString => (acc, s)
  end.

Definition starts_with_digit (s : string) : bool :=
  match s with
  | String c _ => match digit_value c with Some _ => true | None => false end
  | EmptyString => false
  end.

(** [d[k] = v]: a repeated key keeps its place and takes the new value. *)
Fixpoint dict_set (k : string) (v : value) (d : list (string * value))
  : list (string * value) :=
  match d with
  | [] => [(k, v)]
  | (k', v') :: d' =>
      if String.eqb k k' then (k, v) :: d' else (k', v') :: dict_set k v d'
  end.

Definition after (p : string) (s : string) : option string :=
  if prefix p s
  then Some (substring (String.length p) (String.length s - String.length p) s)
  else None.

Fixpoint read_value (fuel : nat) (s : string) : option (value * string) :=
  match fuel with
  | O => None
  | S fuel' =>
      match skip_spaces s with
      | EmptyString => None
      | String c rest as s0 =>
          if Ascii.eqb c dquote then
            match read_string rest with
            | Some (body, rest') => Some (VStr body, rest')
            | None => None
            end
          else if Ascii.eqb c "["%char then
            match skip_spaces rest with
            | String "]"%char rest' => Some (VList [], rest')
            | _ => match read_elements fuel' rest with
                   | Some (l, rest') => Some (VList l, rest')
                   | None => None
                   end
            end
          else if Ascii.eqb c "{"%char then
            match skip_spaces rest with
            | String "}"%char rest' => Some (VDict [], rest')
            | _ => match read_members fuel' rest [] with
                   | Some (d, rest') => Some (VDict d, rest')
                   | None => None
                   end
            end
          else if Ascii.eqb c "-"%char then
            if starts_with_digit rest
            then let '(z, rest') := read_digits rest 0 in Some (VInt (- z), rest')
            else None
          else if starts_with_digit s0
          then let '(z, rest') := read_digits s0 0 in Some (VInt z, rest')
          else match after "true" s0, after "false" s0, after "null" s0 with
               | Some rest', _, _ => Some (VBool true, rest')
               | _, Some rest', _ => Some (VBool false, rest')
               | _, _, Some rest' => Some (VNone, rest')
               | _, _, _ => None
               end
      end
  end
with read_elements (fuel : nat) (s : string) : option (list value * string) :=
  match fuel with
  | O => None
  | S fuel' =>
      match read_value fuel' s with
      | Some (v, rest) =>
          match skip_spaces rest with
          | String ","%char rest' =>
              match read_elements fuel' rest' with
              | Some (l, rest'') => Some (v :: l, rest'')
              | None => None
              end
          | String "]"%char rest' => Some ([v], rest')
          | _ => None
          end
      | None => None
      end
  end
with read_members (fuel : nat) (s : string) (d : list (string * value))
  : option (list (string * value) * string) :=
  match fuel with
  | O => None
  | S fuel' =>
      match skip_spaces s with
      | String c rest =>
          if Ascii.eqb c dquote then
            match read_string rest with
            | Some (k, rest1) =>
                match skip_spaces rest1 with
                | String ":"%char rest2 =>
                    match read_value fuel' rest2 with
                    | Some (v, rest3) =>
                        match skip_spaces rest3 with
                        | String ","%char rest4 =>
                            read_members fuel' rest4 (dict_set k v d)
                        | String "}"%char rest4 => Some (dict_set k v d, rest4)
                        | _ => None
                        end
                    | None => None
                    end
                | _ => None
                end
            | None => None
            end
          else None
      | EmptyString => None
      end
  end.

Definition json_loads (s : string) : result value :=
  match read_value (S (String.length s)) s with
  | Some (v, rest) =>
      match skip_spaces rest with
      | EmptyString => Ok v
      | _ => Err (Raised "json.loads")
      end
  | None => Err (Raised "json.loads")
  end.

Definition helpers : Helpers :=
  Build_Helpers bytes bytes (xc0 :: repeat x00 95) (fun bs : bytes => Ok bs)
                hexstr_to_bytes uint64 binutils_assemble
                puzzle_for_pk solution_for_conditions tree_hash json_loads.

#[local] Existing Instance helpers.

(** *** Byte conventions

    A program is written as a tag, [01] for an atom followed by its
    length on four bytes and its bytes, [02] for a pair followed by its
    two parts; a signature is its own bytes. *)

Fixpoint sexp_bytes (p : SExp) : bytes :=
  match p with
  | Atom bs => x01 :: big_endian 4 (Z.of_nat (List.length bs)) ++ bs
  | Pair a b => x02 :: sexp_bytes a ++ sexp_bytes b
  end.

Fixpoint read_sexp (fuel : nat) (bs : bytes) : result (SExp * bytes) :=
  match fuel with
  | O => Err (Raised "from_bytes")
  | S fuel' =>
      match bs with
      | x01 :: rest =>
          len_rest <- take "from_bytes" 4 rest ;;
          atom_rest <- take "from_bytes"
                            (Z.to_nat (of_big_endian (fst len_rest))) (snd len_rest) ;;
          Ok (Atom (fst atom_rest), snd atom_rest)
      | x02 :: rest =>
          a_rest <- read_sexp fuel' rest ;;
          b_rest <- read_sexp fuel' (snd a_rest) ;;
          Ok (Pair (fst a_rest) (fst b_rest), snd b_rest)
      | _ => Err (Raised "from_bytes")
      end
  end.

Definition wire : Wire :=
  Build_Wire helpers sexp_bytes (fun bs => read_sexp (List.length bs) bs)
             (fun g : bytes => g) (fun bs : bytes => Ok bs).

(** *** Sample data *)

Definition key0 : bytes := [x0a; x0b].
Definition key1 : bytes := [x0c; x0d].

Definition coin_for (parent : bytes) (pk : bytes) (amt : Z) : Coin :=
  mkCoin parent (tree_hash (puzzle_for_pk pk)) (VInt amt).

Definition input0 : Input := mkInput (coin_for [x00] key0 100) key0.
Definition input1 : Input := mkInput (coin_for [x01] key1 50) key1.

(** An input whose coin is locked by another key than the one supplied. *)
Definition input_bad : Input := mkInput (coin_for [x00] key1 100) key0.

Definition request0 : SpendRequest := mkSpendRequest [xaa] (VInt 30).

Definition primaryA : Primary := mkPrimary [xaa] (VInt 30).

(** A coin solution and a bundle with well-sized fields. *)
Definition coin_solution0 : CoinSolution :=
  mkCoinSolution (mkCoin (repeat x01 32) (repeat x02 32) (VInt 77))
                 (Program_to [Atom [x80]; Atom []]).

Definition bundle0 : SpendBundle :=
  mkSpendBundle [coin_solution0; coin_solution0] G2Element_infinity.

(** *** Sample descriptions *)

Definition q : string := String dquote EmptyString.

(** A string literal and a key of JSON text. *)
Definition str (s : string) : string := q ++ s ++ q.
Definition key (s : string) : string := q ++ s ++ q ++ ": ".

(** [{"spends": [ ... ]}] *)
Definition description (entries : string) : string :=
  "{" ++ key "spends" ++ "[" ++ entries ++ "]}".

Definition coin_text (parent ph amt : string) : string :=
  "{" ++ key "parent_id" ++ str parent ++ ", " ++ key "puzzle_hash" ++ str ph
      ++ ", " ++ key "amount" ++ amt ++ "}".

(** A raw entry: a coin locked by the program [80], that program, and a
    solution. *)
Definition raw_entry : string :=
  "{" ++ key "input_coin" ++ coin_text "00" "0180" "5" ++ ", "
      ++ key "puzzle_reveal" ++ str "80" ++ ", " ++ key "solution" ++ str "01" ++ "}".

(** The same entry without its [solution]. *)
Definition raw_entry_without_solution : string :=
  "{" ++ key "input_coin" ++ coin_text "00" "0180" "5" ++ ", "
      ++ key "puzzle_reveal" ++ str "80" ++ "}".

(** A raw entry whose program [81] does not hash to the coin's puzzle hash. *)
Definition raw_entry_mismatched : string :=
  "{" ++ key "input_coin" ++ coin_text "00" "0180" "5" ++ ", "
      ++ key "puzzle_reveal" ++ str "81" ++ ", " ++ key "solution" ++ str "01" ++ "}".

(** A descriptive entry: one coin of 100 locked by the key [0a0b], and a
    request for 30. *)
Definition descriptive_entry : string :=
  "{" ++ key "input_coins" ++ "[{" ++ key "coin"
      ++ coin_text "00" "020102010a0b" "100" ++ ", " ++ key "pubkey" ++ str "0a0b"
      ++ "}], " ++ key "spend_requests" ++ "[{" ++ key "puzzle_hash" ++ str "aa"
      ++ ", " ++ key "amount" ++ "30}]}".

(** A descriptive entry without its [input_coins]. *)
Definition descriptive_entry_without_coins : string :=
  "{" ++ key "spend_requests" ++ "[]}".

(** An entry of neither form. *)
Definition other_entry : string := "{" ++ key "memo" ++ str "hello" ++ "}".

(** *** More sample data *)

Definition request_large : SpendRequest := mkSpendRequest [xaa] (VInt 500).

(** A descriptive entry with two coins. *)
Definition two_coin_entry : string :=
  "{" ++ key "input_coins" ++ "[{" ++ key "coin"
      ++ coin_text "00" "020102010a0b" "100" ++ ", " ++ key "pubkey" ++ str "0a0b"
      ++ "}, {" ++ key "coin"
      ++ coin_text "01" "020102010c0d" "50" ++ ", " ++ key "pubkey" ++ str "0c0d"
      ++ "}], " ++ key "spend_requests" ++ "[{" ++ key "puzzle_hash" ++ str "aa"
      ++ ", " ++ key "amount" ++ "30}]}".

(** A descriptive entry that asks for all of its coin. *)
Definition exact_entry : string :=
  "{" ++ key "input_coins" ++ "[{" ++ key "coin"
      ++ coin_text "00" "020102010a0b" "100" ++ ", " ++ key "pubkey" ++ str "0a0b"
      ++ "}], " ++ key "spend_requests" ++ "[{" ++ key "puzzle_hash" ++ str "aa"
      ++ ", " ++ key "amount" ++ "100}]}".

(** A descriptive entry with an empty list of coins. *)
Definition coinless_entry : string :=
  "{" ++ key "input_coins" ++ "[], " ++ key "spend_requests" ++ "[]}".

Fixpoint times (n : nat) (s : string) : string :=
  match n with
  | O => EmptyString
  | Datatypes.S n' => s ++ times n' s
  end.

(** A raw entry with hashes of 32 bytes: the puzzle is an atom of 31
    bytes, which the sample tree hash lists after one byte. *)
Definition sized_entry : string :=
  "{" ++ key "input_coin"
      ++ coin_text (times 32 "11") ("01" ++ times 31 "80") "5" ++ ", "
      ++ key "puzzle_reveal" ++ str (times 31 "80") ++ ", "
      ++ key "solution" ++ str "01" ++ "}".

(** The same entry without its [solution], without its [puzzle_reveal],
    and with a program that does not hash to the coin's puzzle hash. *)
Definition sized_entry_without_solution : string :=
  "{" ++ key "input_coin"
      ++ coin_text (times 32 "11") ("01" ++ times 31 "80") "5" ++ ", "
      ++ key "puzzle_reveal" ++ str (times 31 "80") ++ "}".

Definition sized_entry_without_reveal : string :=
  "{" ++ key "input_coin"
      ++ coin_text (times 32 "11") ("01" ++ times 31 "80") "5" ++ ", "
      ++ key "solution" ++ str "01" ++ "}".

Definition sized_entry_mismatched : string :=
  "{" ++ key "input_coin"
      ++ coin_text (times 32 "11") ("01" ++ times 31 "80") "5" ++ ", "
      ++ key "puzzle_reveal" ++ str (times 31 "81") ++ ", "
      ++ key "solution" ++ str "01" ++ "}".

(** An entry without its [puzzle_reveal] whose parent id is not
    hexadecimal text. *)
Definition sized_entry_unreadable : string :=
  "{" ++ key "input_coin"
      ++ coin_text "zz" ("01" ++ times 31 "80") "5" ++ ", "
      ++ key "solution" ++ str "01" ++ "}".

Definition streamable : Streamable := @wire_streamable helpers wire.

(** A wallet that is reachable, signs by sending the bundle back as it
    is, accepts what is pushed and holds one coin. *)
Definition wallet : Wallet :=
  Build_Wallet helpers (Ok tt) (fun hex => Ok hex) (fun _ => Ok tt)
               (Ok [VDict [("puzzle", VStr "0100000000")]])
               (fun bs => r <- read_sexp (List.length bs) bs ;; Ok (fst r))
               (fun p => hex (sexp_bytes p)).

(** The value a text is read as, the bundle of a description, the bytes
    and the encoding of a bundle. *)
Definition parsed (text : string) : value :=
  match json_loads text with Ok v => v | Err _ => VNone end.

Definition bundle_of (json_tx : string) : SpendBundle :=
  match create_unsigned_tx_from_json json_tx with
  | Ok b => b
  | Err _ => mkSpendBundle [] G2Element_infinity
  end.

Definition bytes_of (b : SpendBundle) : bytes :=
  match @SpendBundle_bytes helpers streamable b with Ok bs => bs | Err _ => [] end.

Definition encoding_of (b : SpendBundle) : string :=
  match @encode_spendbundle helpers streamable b with Ok s => s | Err _ => "" end.

End Sample.
(** ** Vocabulary of the statements *)

Definition items {A} (o : option (list A)) : list A :=
  match o with Some l => l | None => [] end.

(** The coin id that [me] supplies, if any. *)
Definition my_coin_id (me : option bdict) : option bytes :=
  bdict_get "id" (items me).


Definition create_coin_of (p : Primary) : Condition :=
  CreateCoin p.(puzzlehash) p.(primary_amount).

Definition Zsum (l : list Z) : Z := fold_right Z.add 0 l.

Section Vocabulary.
Context `{Helpers}.

(** The coin solution the assembler builds for the origin. *)
Definition origin_solution (origin : Input) (reqs : list SpendRequest) : CoinSolution :=
  mkCoinSolution origin.(coin)
    (Program_to [puzzle_for_pk origin.(pubkey);
                 solution_for_conditions
                   (map (fun r => CreateCoin r.(sr_puzzle_hash) r.(sr_amount)) reqs)]).

(** The coin solution the loop is written to build for another input. *)
Definition passthrough_solution (i : Input) : CoinSolution :=
  mkCoinSolution i.(coin)
    (Program_to [puzzle_for_pk i.(pubkey); solution_for_conditions []]).

(** The puzzle derived from the input's key hashes to the coin's puzzle hash. *)
Definition puzzle_matches (i : Input) : Prop :=
  get_tree_hash (puzzle_for_pk i.(pubkey)) = i.(coin).(puzzle_hash).

(** Inputs and requests whose amounts are integers, as the annotations
    [uint64] of [Coin] and [SpendRequest] say. *)
Definition input_amounts (inputs : list Input) (amts : list Z) : Prop :=
  map (fun i => i.(coin).(amount)) inputs = map VInt amts.

Definition request_amounts (reqs : option (list SpendRequest)) (outs : list Z) : Prop :=
  map sr_amount (items reqs) = map VInt outs.

End Vocabulary.

(** An entry of neither form: it tests false for both [spend_requests]
    and [solution]. *)
Definition neither_form (s : value) : bool :=
  match contains "spend_requests" s, contains "solution" s with
  | Ok false, Ok false => true
  | _, _ => false
  end.

Definition has_field (v : value) (k : string) : bool := is_ok (getitem v k).

Definition all_items (f : value -> bool) (v : value) : bool :=
  match iter v with
  | Ok l => forallb f l
  | Err _ => false
  end.

(** The fields the parser reads from a coin, an input, a request and from
    an entry of either form. *)
Definition coin_fields_present (c : value) : bool :=
  has_field c "parent_id" && has_field c "puzzle_hash" && has_field c "amount".

Definition input_fields_present (i : value) : bool :=
  match getitem i "coin" with
  | Ok c => coin_fields_present c
  | Err _ => false
  end && has_field i "pubkey".

Definition request_fields_present (r : value) : bool :=
  has_field r "puzzle_hash" && has_field r "amount".

Definition descriptive_fields_present (s : value) : bool :=
  match getitem s "input_coins", getitem s "spend_requests" with
  | Ok ic, Ok sr =>
      all_items input_fields_present ic && all_items request_fields_present sr
  | _, _ => false
  end.

Definition raw_fields_present (s : value) : bool :=
  match getitem s "input_coin" with
  | Ok c => coin_fields_present c
  | Err _ => false
  end && has_field s "puzzle_reveal" && has_field s "solution".

(** An entry that is skipped, or has every field of the form its keys
    select. *)
Definition entry_fields_present (s : value) : bool :=
  match contains "spend_requests" s with
  | Ok true => descriptive_fields_present s
  | Ok false =>
      match contains "solution" s with
      | Ok true => raw_fields_present s
      | Ok false => true
      | Err _ => false
      end
  | Err _ => false
  end.

(** An entry that is missing a required field: an object that has neither
    all the top-level keys of the descriptive form nor all those of the
    raw form. *)
Definition missing_required_field (s : value) : bool :=
  match s with
  | VDict d =>
      negb (has_key "input_coins" d && has_key "spend_requests" d)
      && negb (has_key "input_coin" d && has_key "puzzle_reveal" d
               && has_key "solution" d)
  | _ => false
  end.

(** A coin as the data model has it: two hashes of 32 bytes and an amount
    that fits 64 bits. *)
Definition valid_coin (c : Coin) : bool :=
  (List.length c.(parent_coin_info) =? 32)%nat
  && (List.length c.(puzzle_hash) =? 32)%nat
  && match c.(amount) with
     | VInt z => (0 <=? z) && (z <? 2 ^ 64)
     | _ => false
     end.

Section WireVocabulary.
Context `{Wire}.

(** What the byte conventions of the collaborators owe a bundle: each of
    its programs is read back from its bytes, whatever follows them, and
    its signature is 96 bytes that are read back. *)
Definition programs_read_back (b : SpendBundle) : Prop :=
  Forall (fun cs => forall rest,
              Program_read (Program_bytes cs.(cs_solution) ++ rest)
              = Ok (cs.(cs_solution), rest))
         b.(coin_solutions).

Definition signature_reads_back (b : SpendBundle) : Prop :=
  List.length (G2Element_bytes b.(aggregated_signature)) = 96%nat
  /\ G2Element_from_bytes (G2Element_bytes b.(aggregated_signature))
     = Ok b.(aggregated_signature).

Definition valid_bundle (b : SpendBundle) : Prop :=
  forallb (fun cs => valid_coin cs.(cs_coin)) b.(coin_solutions) = true
  /\ programs_read_back b /\ signature_reads_back b.

End WireVocabulary.

Section ParserVocabulary.
Context `{Helpers}.

Definition is_dict (v : value) : bool :=
  match v with VDict _ => true | _ => false end.

(** The field [k] of [v], when [v] has it, satisfies [p]. *)
Definition field_is (p : value -> bool) (v : value) (k : string) : bool :=
  match getitem v k with
  | Ok x => p x
  | Err _ => true
  end.

Definition list_of (p : value -> bool) (v : value) : bool :=
  match v with
  | VList l => forallb p l
  | _ => false
  end.

(** Text that [hexstr_to_bytes] reads, and text that it reads into bytes
    that [G1Element.from_bytes] reads. *)
Definition hex_ok (x : value) : bool := is_ok (hexstr_to_bytes x).

Definition key_ok (x : value) : bool :=
  is_ok (b <- hexstr_to_bytes x ;; G1Element_from_bytes b).

(** An entry whose objects are objects, whose lists are lists, and whose
    fields, as far as they are present, are read by the helpers: the only
    thing that can be wrong with it is a field that is not there. *)
Definition input_readable (i : value) : bool :=
  is_dict i
  && field_is (fun c => is_dict c && field_is hex_ok c "parent_id"
                        && field_is hex_ok c "puzzle_hash") i "coin"
  && field_is key_ok i "pubkey".

Definition request_readable (r : value) : bool :=
  is_dict r && field_is hex_ok r "puzzle_hash".

Definition descriptive_readable (s : value) : bool :=
  is_dict s
  && field_is (list_of input_readable) s "input_coins"
  && field_is (list_of request_readable) s "spend_requests".

Definition raw_readable (s : value) : bool :=
  is_dict s
  && field_is (fun c => is_dict c && field_is hex_ok c "parent_id"
                        && field_is hex_ok c "puzzle_hash"
                        && field_is (fun a => is_ok (uint64 a)) c "amount")
              s "input_coin"
  && field_is (fun r => is_ok (binutils_assemble r)) s "puzzle_reveal".

Definition entry_readable (s : value) : bool :=
  match contains "spend_requests" s with
  | Ok true => descriptive_readable s
  | Ok false =>
      match contains "solution" s with
      | Ok true => raw_readable s
      | Ok false => true
      | Err _ => false
      end
  | Err _ => false
  end.

(** The names of the fields that the two forms read. *)
Definition required_fields : list string :=
  ["input_coins"; "spend_requests"; "coin"; "parent_id"; "puzzle_hash";
   "amount"; "pubkey"; "input_coin"; "puzzle_reveal"; "solution"].

(** The outcome of a call that fails for want of one of them. *)
Definition missing_field_error {A} (r : result A) : Prop :=
  exists k, In k required_fields /\ r = Err (KeyError k).

End ParserVocabulary.

(** ** Vocabulary of the further properties *)

Section AssemblerVocabulary.
Context `{Helpers}.

(** The exceptions of lines 90-124. *)
Definition assembler_error (e : exn) : Prop :=
  e = TypeError
  \/ (exists input_value sent_value, e = ValueError_amounts input_value sent_value)
  \/ e = AssertionError_origin_puzzle
  \/ e = AttributeError "Coin" "pubkey".

(** A coin solution that reveals a puzzle hashing to its coin's puzzle
    hash, next to a solution. *)
Definition reveals_matching_puzzle (cs : CoinSolution) : Prop :=
  exists puzzle solution,
    cs.(cs_solution) = Program_to [puzzle; solution]
    /\ get_tree_hash puzzle = cs.(cs_coin).(puzzle_hash).

End AssemblerVocabulary.

Section CommandLineVocabulary.
Context {H : Helpers}.

(** The events that reach the wallet. *)
Definition is_wallet_event (e : event) : bool :=
  match e with
  | Connecting | SignRequested _ | PushRequested _ | CoinsRequested | Closed => true
  | _ => false
  end.

Definition is_push (e : event) : bool :=
  match e with PushRequested _ => true | _ => false end.

(** Every event of a run satisfies [P]. *)
Definition all_events {A} (P : event -> bool) (m : io A) : Prop :=
  forallb P (fst m) = true.

Definition is_closed (e : event) : bool :=
  match e with Closed => true | _ => false end.

End CommandLineVocabulary.
(** * Properties *)

(** ** The error monad *)

Lemma bind_Ok {A B} (m : result A) (k : A -> result B) (b : B) :
  bind m k = Ok b -> exists a, m = Ok a /\ k a = Ok b.
Proof.
  destruct m as [a|e]; simpl; intros E; [eauto | discriminate].
Qed.

Lemma assert_Ok {A} (c : bool) (e : exn) (k : result A) (a : A) :
  (if c then k else Err e) = Ok a -> c = true /\ k = Ok a.
Proof.
  destruct c; [auto | discriminate].
Qed.

(** Inverts a hypothesis saying that a monadic block returned normally. *)
Ltac ok_inv E :=
  repeat match type of E with
  | bind ?m ?k = Ok _ =>
      let a := fresh "a" in
      let Ea := fresh "E" a in
      apply bind_Ok in E; destruct E as (a & Ea & E); cbv beta in E
  | (if ?c then _ else Err _) = Ok _ =>
      let Ec := fresh "Ec" in
      apply assert_Ok in E; destruct E as (Ec & E)
  end.

Lemma fold_left_list_append {A B} (f : A -> B) (l : list A) (acc : list B) :
  fold_left (fun cl a => list_append cl (f a)) l acc = acc ++ map f l.
Proof.
  revert acc; induction l as [|a l IH]; intros acc; simpl.
  - now rewrite app_nil_r.
  - rewrite IH. unfold list_append. now rewrite <- app_assoc.
Qed.

Lemma bytes_eqb_eq (a b : bytes) : bytes_eqb a b = true <-> a = b.
Proof.
  revert b; induction a as [|x a IH]; intros [|y b]; simpl;
    try (split; [discriminate | congruence]); [tauto|].
  rewrite andb_true_iff, IH. split.
  - intros [Hxy ->]. now rewrite (Byte.byte_dec_bl _ _ Hxy).
  - intros [= -> ->]. split; [now apply Byte.byte_dec_lb | reflexivity].
Qed.

Lemma bytes_eqb_refl (a : bytes) : bytes_eqb a a = true.
Proof. now apply bytes_eqb_eq. Qed.

(** ** The condition encoder *)

Lemma truthy_items {A} (o : option (list A)) : truthy o = false -> items o = [].
Proof. destruct o as [[|a l]|]; simpl; congruence. Qed.

(** The list [make_solution] builds, kind by kind, in one expression. *)
Lemma make_solution_conditions_Ok primaries min_time me consumed fee cl :
  make_solution_conditions primaries min_time me consumed fee = Ok cl ->
  cl = map create_coin_of (items primaries)
       ++ map AssertCoinConsumed (items consumed)
       ++ (if min_time >? 0 then [AssertTimeExceeds min_time] else [])
       ++ match my_coin_id me with
          | Some id => [AssertMyCoinId id]
          | None => []
          end
       ++ (if fee =? 0 then [] else [AssertFee fee]).
Proof.
  unfold make_solution_conditions, my_coin_id. intros E. ok_inv E.
  injection E as <-.
  assert (Hp : (if truthy primaries
                then fold_left (fun cl primary =>
                       list_append cl (make_create_coin_condition
                                         (puzzlehash primary) (primary_amount primary)))
                       (items primaries) []
                else []) = map create_coin_of (items primaries)).
  { destruct (truthy primaries) eqn:T.
    - now rewrite (fold_left_list_append create_coin_of).
    - now rewrite (truthy_items _ T). }
  fold (items primaries) in Ea. fold (items consumed) in Ea.
  fold (items me) in Ea. rewrite Hp in Ea. clear Hp.
  set (c0 := map create_coin_of (items primaries)) in *.
  assert (Hc : (if truthy consumed
                then fold_left (fun cl c =>
                       list_append cl (make_assert_coin_consumed_condition c))
                       (items consumed) c0
                else c0) = c0 ++ map AssertCoinConsumed (items consumed)).
  { destruct (truthy consumed) eqn:T.
    - now rewrite (fold_left_list_append AssertCoinConsumed).
    - rewrite (truthy_items _ T). simpl. now rewrite app_nil_r. }
  rewrite Hc in Ea. clear Hc.
  set (c1 := c0 ++ map AssertCoinConsumed (items consumed)) in *.
  assert (Ha : a = (if min_time >? 0 then c1 ++ [AssertTimeExceeds min_time] else c1)
                   ++ match bdict_get "id" (items me) with
                      | Some id => [AssertMyCoinId id]
                      | None => []
                      end).
  { unfold items. destruct (truthy me) eqn:T.
    - destruct (bdict_get "id" _); [|discriminate].
      now injection Ea as <-.
    - apply truthy_items in T. unfold items in T. rewrite T. simpl.
      rewrite app_nil_r. now injection Ea as <-. }
  subst a c1. unfold list_append, make_assert_fee_condition.
  destruct (min_time >? 0), (fee =? 0); simpl;
    repeat rewrite <- app_assoc; simpl; try rewrite app_nil_r; reflexivity.
Qed.

(** The call returns unless the fee is negative or a non-empty [me] has no
    key [id]. *)
Lemma make_solution_conditions_is_ok primaries min_time me consumed fee :
  is_ok (make_solution_conditions primaries min_time me consumed fee) = true
  <-> 0 <= fee /\ (truthy me = true -> my_coin_id me <> None).
Proof.
  unfold make_solution_conditions, my_coin_id, items.
  destruct (fee >=? 0) eqn:F; [|split; [discriminate | lia]].
  assert (0 <= fee) by lia.
  destruct me as [[|kv d]|]; cbn [truthy].
  - split; [|reflexivity]. intros _. split; [assumption | discriminate].
  - destruct (bdict_get "id" (kv :: d)); cbn [bind is_ok].
    + split; [|reflexivity]. intros _. split; [assumption | discriminate].
    + split; [discriminate|]. intros [_ K]. now elim K.
  - split; [|reflexivity]. intros _. split; [assumption | discriminate].
Qed.





(** The order of the primaries is the order of their conditions: with
    primaries [A; B], [CreateCoin A] is listed before [CreateCoin B]. *)
Lemma create_coin_order (A B : Primary) min_time consumed fee cl :
  make_solution_conditions (Some [A; B]) min_time None consumed fee = Ok cl ->
  exists rest, cl = create_coin_of A :: create_coin_of B :: rest.
Proof.
  intros E. rewrite (make_solution_conditions_Ok _ _ _ _ _ _ E). simpl. eauto.
Qed.

Lemma make_solution_outputs `{Helpers} (outputs : list Primary) :
  make_solution (Some outputs) 0 None None 0
  = Ok (solution_for_conditions (map create_coin_of outputs)).
Proof.
  unfold make_solution.
  destruct (make_solution_conditions (Some outputs) 0 None None 0) as [cl|e] eqn:E.
  - rewrite (make_solution_conditions_Ok _ _ _ _ _ _ E). simpl.
    now rewrite app_nil_r.
  - assert (K : is_ok (make_solution_conditions (Some outputs) 0 None None 0) = true).
    { apply make_solution_conditions_is_ok. split; [lia | discriminate]. }
    rewrite E in K. discriminate.
Qed.

(** ** The assembler *)

Lemma pop_Some {A} (l l' : list A) (a : A) :
  pop l = Some (a, l') -> l = l' ++ [a].
Proof.
  unfold pop. destruct (rev l) as [|x r] eqn:R; [discriminate|].
  intros [= <- <-]. rewrite <- (rev_involutive l), R. reflexivity.
Qed.

Lemma pop_removelast {A} (l l' : list A) (a : A) :
  pop l = Some (a, l') -> l' = removelast l.
Proof.
  intros P. rewrite (pop_Some _ _ _ P). now rewrite removelast_last.
Qed.

Lemma pop_None {A} (l : list A) : pop l = None -> l = [].
Proof.
  unfold pop. destruct (rev l) eqn:R; [|discriminate].
  intros _. rewrite <- (rev_involutive l), R. reflexivity.
Qed.

Lemma Zsum_app (l1 l2 : list Z) : Zsum (l1 ++ l2) = Zsum l1 + Zsum l2.
Proof. induction l1 as [|z l IH]; simpl; lia. Qed.

Lemma py_sum_ints (l : list Z) : py_sum (map VInt l) = Ok (Zsum l).
Proof.
  unfold py_sum.
  assert (G : forall acc,
             fold_left (fun acc v => a <- acc ;; z <- as_int v ;; Ok (a + z))
                       (map VInt l) (Ok acc) = Ok (acc + Zsum l)).
  { induction l as [|z l IH]; intros acc; simpl.
    - f_equal; lia.
    - rewrite IH. f_equal; lia. }
  now rewrite G.
Qed.

Section AssemblerFacts.
Context `{Helpers}.

(** The loop stops at its first item: [coin.pubkey] raises. *)
Lemma spend_remaining_cons i inputs spends :
  spend_remaining (i :: inputs) spends = Err (AttributeError "Coin" "pubkey").
Proof. reflexivity. Qed.

Lemma spend_remaining_Ok inputs spends r :
  spend_remaining inputs spends = Ok r -> inputs = [] /\ r = spends.
Proof.
  destruct inputs as [|i inputs]; simpl; [|discriminate].
  now intros [= <-].
Qed.

Lemma outputs_of_requests (reqs : list SpendRequest) :
  map create_coin_of
      (fold_left (fun o request =>
                    list_append o (mkPrimary request.(sr_puzzle_hash) request.(sr_amount)))
                 reqs [])
  = map (fun r => CreateCoin r.(sr_puzzle_hash) r.(sr_amount)) reqs.
Proof.
  rewrite (fold_left_list_append
             (fun request => mkPrimary request.(sr_puzzle_hash) request.(sr_amount))).
  simpl. now rewrite map_map.
Qed.

(** What lines 90-124 do once the list has been popped, for integer
    amounts: the funds check, then the origin's hash check, then the
    origin's coin solution, then the loop. *)
Lemma assemble_typed origin others reqs validate amts origin_amt outs :
  input_amounts others amts ->
  origin.(coin).(amount) = VInt origin_amt ->
  request_amounts reqs outs ->
  assemble origin others reqs validate =
    if validate && (Zsum outs >=? Zsum amts + origin_amt)
    then Err (ValueError_amounts (Zsum amts + origin_amt) (Zsum outs))
    else if bytes_eqb (get_tree_hash (puzzle_for_pk origin.(pubkey)))
                      origin.(coin).(puzzle_hash)
    then match others with
         | [] => Ok [origin_solution origin (items reqs)]
         | _ :: _ => Err (AttributeError "Coin" "pubkey")
         end
    else Err AssertionError_origin_puzzle.
Proof.
  unfold input_amounts, request_amounts, assemble. intros Ha Ho Hr.
  rewrite Ha, py_sum_ints, Ho. cbn [bind as_int].
  assert (E : match reqs with
              | Some reqs0 =>
                  sent_value <- py_sum (map sr_amount reqs0) ;;
                  Ok (sent_value,
                      fold_left (fun o request =>
                                   list_append o (mkPrimary request.(sr_puzzle_hash)
                                                            request.(sr_amount)))
                                reqs0 [])
              | None => Ok (0, [])
              end
              = Ok (Zsum outs,
                    fold_left (fun o request =>
                                 list_append o (mkPrimary request.(sr_puzzle_hash)
                                                          request.(sr_amount)))
                              (items reqs) [])).
  { destruct reqs as [reqs0|]; simpl in *.
    - now rewrite Hr, py_sum_ints.
    - destruct outs; [reflexivity | discriminate]. }
  rewrite E. cbn [bind fst snd].
  destruct (validate && (Zsum outs >=? Zsum amts + origin_amt)); cbn [negb];
    [reflexivity|].
  destruct (bytes_eqb _ _); [|reflexivity].
  rewrite make_solution_outputs, outputs_of_requests. cbn [bind].
  destruct others; reflexivity.
Qed.

End AssemblerFacts.

Section AssemblerClaims.
Context `{Helpers}.

(** A call that returns had nothing left to loop over: it popped the only
    input, whose puzzle matched, and built the origin's coin solution. *)
Lemma assemble_Ok origin others reqs validate spends :
  assemble origin others reqs validate = Ok spends ->
  others = [] /\ spends = [origin_solution origin (items reqs)]
  /\ puzzle_matches origin.
Proof.
  unfold assemble. intros E. ok_inv E.
  rewrite make_solution_outputs in Ea2. injection Ea2 as <-.
  apply spend_remaining_Ok in E. destruct E as [-> ->].
  apply bytes_eqb_eq in Ec0.
  split; [reflexivity|]. split; [|exact Ec0].
  assert (Ho : map create_coin_of (snd a1)
               = map (fun r => CreateCoin r.(sr_puzzle_hash) r.(sr_amount))
                     (items reqs)).
  { destruct reqs as [reqs0|]; simpl in Ea1.
    - ok_inv Ea1. injection Ea1 as <-. cbn [snd]. apply outputs_of_requests.
    - injection Ea1 as <-. reflexivity. }
  unfold list_append, origin_solution. simpl. now rewrite Ho.
Qed.

Lemma create_unsigned_transaction_Some inputs reqs validate :
  inputs <> [] ->
  exists origin others,
    inputs = others ++ [origin]
    /\ create_unsigned_transaction (Some inputs) reqs validate
       = (assemble origin others reqs validate, (Some others, reqs)).
Proof.
  intros Hne. unfold create_unsigned_transaction.
  destruct inputs as [|i l]; [congruence|]. cbn [List.length Nat.ltb Nat.leb negb].
  destruct (pop (i :: l)) as [[origin others]|] eqn:P.
  - exists origin, others. split; [exact (pop_Some _ _ _ P) | reflexivity].
  - apply pop_None in P. discriminate.
Qed.

Lemma create_unsigned_transaction_Ok inputs reqs validate spends :
  fst (create_unsigned_transaction inputs reqs validate) = Ok spends ->
  exists origin,
    inputs = Some [origin] /\ spends = [origin_solution origin (items reqs)]
    /\ puzzle_matches origin.
Proof.
  destruct inputs as [l|]; [|discriminate].
  destruct l as [|i l]; [discriminate|].
  destruct (create_unsigned_transaction_Some (i :: l) reqs validate)
    as (origin & others & Hl & ->); [discriminate|].
  cbn [fst]. intros E. apply assemble_Ok in E. destruct E as (-> & -> & M).
  exists origin. rewrite Hl. auto.
Qed.

(** C3: with two or more inputs the loop over the inputs that are not the
    origin raises at its first item, on [coin.pubkey], so the call returns
    no coin solution for any of them. *)
Theorem two_inputs_never_assemble
    (inputs : list Input) reqs validate spends :
  (2 <= List.length inputs)%nat ->
  fst (create_unsigned_transaction (Some inputs) reqs validate) <> Ok spends.
Proof.
  intros Hlen E. apply create_unsigned_transaction_Ok in E.
  destruct E as (origin & [= ->] & _). simpl in Hlen. lia.
Qed.

Lemma input_amounts_app others origin amts :
  input_amounts (others ++ [origin]) amts ->
  exists amts' origin_amt,
    amts = amts' ++ [origin_amt] /\ input_amounts others amts'
    /\ origin.(coin).(amount) = VInt origin_amt.
Proof.
  unfold input_amounts. rewrite map_app. simpl. intros E. symmetry in E.
  apply map_eq_app in E. destruct E as (a1 & a2 & -> & E1 & E2).
  destruct a2 as [|oa [|? ?]]; try discriminate. injection E2 as E2.
  exists a1, oa. auto.
Qed.

(** The outcome of a call on a non-empty list of inputs with integer
    amounts. *)
Lemma create_unsigned_transaction_typed others origin reqs validate amts outs :
  input_amounts (others ++ [origin]) amts ->
  request_amounts reqs outs ->
  fst (create_unsigned_transaction (Some (others ++ [origin])) reqs validate) =
    if validate && (Zsum outs >=? Zsum amts)
    then Err (ValueError_amounts (Zsum amts) (Zsum outs))
    else if bytes_eqb (get_tree_hash (puzzle_for_pk origin.(pubkey)))
                      origin.(coin).(puzzle_hash)
    then match others with
         | [] => Ok [origin_solution origin (items reqs)]
         | _ :: _ => Err (AttributeError "Coin" "pubkey")
         end
    else Err AssertionError_origin_puzzle.
Proof.
  intros Ha Hr.
  destruct (create_unsigned_transaction_Some (others ++ [origin]) reqs validate)
    as (origin' & others' & Hl & ->).
  { destruct others; discriminate. }
  apply app_inj_tail in Hl. destruct Hl as [<- <-]. cbn [fst].
  apply input_amounts_app in Ha. destruct Ha as (amts' & oa & -> & Ha & Ho).
  rewrite (assemble_typed _ _ _ validate _ _ _ Ha Ho Hr).
  rewrite Zsum_app. simpl. now rewrite Z.add_0_r.
Qed.

(** With [validate] set, the call raises the [ValueError] of lines 98-102
    exactly when the requested amounts reach the amounts of the inputs. *)
Lemma insufficient_funds_iff others origin reqs amts outs :
  input_amounts (others ++ [origin]) amts ->
  request_amounts reqs outs ->
  (exists iv sv,
      fst (create_unsigned_transaction (Some (others ++ [origin])) reqs true)
      = Err (ValueError_amounts iv sv))
  <-> Zsum outs >= Zsum amts.
Proof.
  intros Ha Hr. rewrite (create_unsigned_transaction_typed _ _ _ true _ _ Ha Hr).
  cbn [andb]. destruct (Zsum outs >=? Zsum amts) eqn:C.
  - split; [lia | eauto].
  - split; [|lia]. intros (iv & sv & E).
    destruct (bytes_eqb _ _); [destruct others|]; discriminate.
Qed.

(** A single input with enough funds and a matching puzzle is assembled. *)
Lemma single_input_assembles origin reqs validate origin_amt outs :
  input_amounts [origin] [origin_amt] ->
  request_amounts reqs outs ->
  Zsum outs < origin_amt ->
  puzzle_matches origin ->
  create_unsigned_transaction (Some [origin]) reqs validate
  = (Ok [origin_solution origin (items reqs)], (Some [], reqs)).
Proof.
  intros Ha Hr Hlt M.
  pose proof (create_unsigned_transaction_typed [] origin reqs validate _ _ Ha Hr) as E.
  cbn [app] in E.
  destruct (create_unsigned_transaction_Some [origin] reqs validate)
    as (o & l & Hl & E'); [discriminate|].
  change [origin] with ([] ++ [origin]) in Hl.
  apply app_inj_tail in Hl. destruct Hl as [<- <-].
  rewrite E' in *. cbn [fst] in E. rewrite E. f_equal.
  assert (C : (Zsum outs >=? Zsum [origin_amt]) = false) by (simpl; lia).
  rewrite C, andb_false_r. unfold puzzle_matches in M.
  now rewrite M, bytes_eqb_refl.
Qed.

(** C1: with [validate] set, two or more inputs whose puzzles all match
    and requests that stay below the inputs' total, the call does not
    return: it raises [AttributeError] on the first input that is not the
    origin. *)
Theorem sufficient_funds_two_inputs_raise
    (inputs : list Input) reqs amts outs :
  (2 <= List.length inputs)%nat ->
  input_amounts inputs amts ->
  request_amounts reqs outs ->
  Zsum outs < Zsum amts ->
  (forall i, In i inputs -> puzzle_matches i) ->
  fst (create_unsigned_transaction (Some inputs) reqs true)
  = Err (AttributeError "Coin" "pubkey").
Proof.
  intros Hlen Ha Hr Hlt Hm.
  destruct (exists_last (l := inputs)) as (others & origin & ->).
  { intros ->. simpl in Hlen. lia. }
  rewrite (create_unsigned_transaction_typed _ _ _ true _ _ Ha Hr).
  assert (C : (Zsum outs >=? Zsum amts) = false) by lia.
  rewrite C. cbn [andb].
  assert (M : puzzle_matches origin) by (apply Hm, in_or_app; simpl; auto).
  unfold puzzle_matches in M. rewrite M, bytes_eqb_refl.
  destruct others; [|reflexivity].
  simpl in Hlen. lia.
Qed.

(** The origin's puzzle is checked: once the funds check has passed, an
    origin whose puzzle does not hash to its coin's puzzle hash raises the
    [AssertionError] of line 110. *)
Lemma origin_mismatch_raises others origin reqs validate amts outs :
  input_amounts (others ++ [origin]) amts ->
  request_amounts reqs outs ->
  (validate = true -> Zsum outs < Zsum amts) ->
  ~ puzzle_matches origin ->
  fst (create_unsigned_transaction (Some (others ++ [origin])) reqs validate)
  = Err AssertionError_origin_puzzle.
Proof.
  intros Ha Hr Hv M.
  rewrite (create_unsigned_transaction_typed _ _ _ validate _ _ Ha Hr).
  assert (C : validate && (Zsum outs >=? Zsum amts) = false).
  { destruct validate; [|reflexivity]. specialize (Hv eq_refl). simpl. lia. }
  rewrite C.
  destruct (bytes_eqb _ _) eqn:B; [|reflexivity].
  apply bytes_eqb_eq in B. contradiction.
Qed.

(** C2: an input that is not the origin and whose puzzle does not match
    its coin is not reported as such: the loop has no hash check and the
    call raises [AttributeError] on [coin.pubkey] instead of an
    [AssertionError]. *)
Theorem mismatched_input_unreported
    (other : Input) others origin reqs validate amts outs :
  ~ puzzle_matches other ->
  puzzle_matches origin ->
  input_amounts (other :: others ++ [origin]) amts ->
  request_amounts reqs outs ->
  (validate = true -> Zsum outs < Zsum amts) ->
  fst (create_unsigned_transaction (Some (other :: others ++ [origin])) reqs validate)
  = Err (AttributeError "Coin" "pubkey").
Proof.
  intros _ M Ha Hr Hv. change (other :: others ++ [origin])
    with ((other :: others) ++ [origin]) in *.
  rewrite (create_unsigned_transaction_typed (other :: others) origin reqs validate _ _ Ha Hr).
  assert (C : validate && (Zsum outs >=? Zsum amts) = false).
  { destruct validate; [|reflexivity]. specialize (Hv eq_refl). simpl. lia. }
  rewrite C. unfold puzzle_matches in M. now rewrite M, bytes_eqb_refl.
Qed.


(** C5 (amended): the call pops the last item off the caller's list of
    inputs, whether it then returns or raises, and leaves the list of
    requests as it was. *)
Theorem arguments_after_call inputs reqs validate :
  snd (create_unsigned_transaction inputs reqs validate)
  = (option_map (@removelast Input) inputs, reqs).
Proof.
  unfold create_unsigned_transaction.
  destruct inputs as [l|]; [|reflexivity].
  destruct l as [|i l]; [reflexivity|]. cbn [List.length Nat.ltb Nat.leb negb].
  destruct (pop (i :: l)) as [[origin others]|] eqn:P.
  - cbn [snd option_map]. now rewrite (pop_removelast _ _ _ P).
  - apply pop_None in P. discriminate.
Qed.

End AssemblerClaims.

(** ** The parser *)

Lemma neither_form_dict (d : list (string * value)) :
  neither_form (VDict d)
  = negb (has_key "spend_requests" d) && negb (has_key "solution" d).
Proof.
  unfold neither_form. simpl.
  destruct (has_key "spend_requests" d), (has_key "solution" d); reflexivity.
Qed.

Section ParserClaims.
Context `{Helpers}.

Lemma spend_entries_app pre post acc :
  spend_entries (pre ++ post) acc
  = (acc' <- spend_entries pre acc ;; spend_entries post acc').
Proof.
  revert acc; induction pre as [|s pre IH]; intros acc; [reflexivity|].
  cbn [app spend_entries].
  destruct (contains "spend_requests" s) as [[|]|e]; cbn [bind]; [| |reflexivity].
  - destruct (descriptive_form s); cbn [bind]; [apply IH | reflexivity].
  - destruct (contains "solution" s) as [[|]|e]; cbn [bind]; [| apply IH | reflexivity].
    destruct (raw_form s); cbn [bind]; [apply IH | reflexivity].
Qed.

Lemma spend_entries_skip s entries acc :
  neither_form s = true ->
  spend_entries (s :: entries) acc = spend_entries entries acc.
Proof.
  unfold neither_form. cbn [spend_entries].
  destruct (contains "spend_requests" s) as [[|]|e]; try discriminate.
  destruct (contains "solution" s) as [[|]|e']; try discriminate.
  reflexivity.
Qed.

(** Entries of neither form leave no trace in the result. *)
Lemma spend_entries_filter entries acc :
  spend_entries entries acc
  = spend_entries (filter (fun s => negb (neither_form s)) entries) acc.
Proof.
  revert acc; induction entries as [|s entries IH]; intros acc; [reflexivity|].
  cbn [filter]. destruct (neither_form s) eqn:N; cbn [negb].
  - rewrite spend_entries_skip by assumption. apply IH.
  - cbn [spend_entries]. unfold neither_form in N.
    destruct (contains "spend_requests" s) as [[|]|e]; cbn [bind]; [| |reflexivity].
    + destruct (descriptive_form s); cbn [bind]; [apply IH | reflexivity].
    + destruct (contains "solution" s) as [[|]|e]; cbn [bind];
        [| discriminate | reflexivity].
      destruct (raw_form s); cbn [bind]; [apply IH | reflexivity].
Qed.

Lemma spend_entries_all_skipped entries acc :
  forallb neither_form entries = true -> spend_entries entries acc = Ok acc.
Proof.
  induction entries as [|s entries IH]; [reflexivity|].
  cbn [forallb]. rewrite andb_true_iff. intros [N F].
  rewrite spend_entries_skip by assumption. auto.
Qed.

(** C9: a bundle returned by the parser carries the identity element as
    its aggregated signature. *)
Theorem parsed_bundle_is_unsigned json_tx (b : SpendBundle) :
  create_unsigned_tx_from_json json_tx = Ok b ->
  b.(aggregated_signature) = G2Element_infinity.
Proof.
  unfold create_unsigned_tx_from_json, spend_bundle_of_json. intros E. ok_inv E.
  now injection E as <-.
Qed.

(** C10: the entries of neither form are left out of the bundle, without
    an error: the call gives what the other entries alone give, and the
    empty bundle with the identity signature when there is no other
    entry. *)
Theorem entries_of_neither_form_are_omitted json_tx j entries :
  json_loads json_tx = Ok j ->
  getitem j "spends" = Ok (VList entries) ->
  create_unsigned_tx_from_json json_tx
  = (spends <- spend_entries (filter (fun s => negb (neither_form s)) entries) [] ;;
     Ok (mkSpendBundle spends G2Element_infinity))
  /\ (forallb neither_form entries = true ->
      create_unsigned_tx_from_json json_tx = Ok (mkSpendBundle [] G2Element_infinity)).
Proof.
  intros Ej Es. unfold create_unsigned_tx_from_json, spend_bundle_of_json.
  rewrite Ej. cbn [bind]. rewrite Es. cbn [bind iter]. split.
  - now rewrite spend_entries_filter.
  - intros F. now rewrite (spend_entries_all_skipped _ _ F).
Qed.

(** *** Entries with missing fields *)

Lemma coin_fields_read (v : value) k1 k2 k3 :
  forall c1 a1 c2 a2 c3 a3,
  getitem v "coin" = Ok c1 -> getitem c1 k1 = Ok a1 ->
  getitem v "coin" = Ok c2 -> getitem c2 k2 = Ok a2 ->
  getitem v "coin" = Ok c3 -> getitem c3 k3 = Ok a3 ->
  has_field c1 k1 && has_field c1 k2 && has_field c1 k3 = true.
Proof.
  intros c1 a1 c2 a2 c3 a3 E1 F1 E2 F2 E3 F3.
  rewrite E1 in E2, E3. injection E2 as <-. injection E3 as <-.
  unfold has_field. now rewrite F1, F2, F3.
Qed.

Lemma input_of_json_Ok i r :
  input_of_json i = Ok r -> input_fields_present i = true.
Proof.
  unfold input_of_json, input_fields_present, coin_fields_present.
  intros E. ok_inv E.
  rewrite Ea, (coin_fields_read i _ _ _ _ _ _ _ _ _ Ea Ea0 Ea2 Ea3 Ea5 Ea6).
  unfold has_field. now rewrite Ea7.
Qed.

Lemma spend_request_of_json_Ok s r :
  spend_request_of_json s = Ok r -> request_fields_present s = true.
Proof.
  unfold spend_request_of_json, request_fields_present, has_field.
  intros E. ok_inv E. now rewrite Ea, Ea1.
Qed.

Lemma mapM_fields (f : value -> bool) {B} (g : value -> result B) l r :
  (forall v b, g v = Ok b -> f v = true) ->
  mapM g l = Ok r -> forallb f l = true.
Proof.
  intros Hg. revert r; induction l as [|v l IH]; intros r E; [reflexivity|].
  simpl in E. ok_inv E. cbn [forallb]. rewrite (Hg _ _ Ea). simpl. eauto.
Qed.

Lemma descriptive_form_Ok s r :
  descriptive_form s = Ok r -> descriptive_fields_present s = true.
Proof.
  unfold descriptive_form, descriptive_fields_present, all_items.
  intros E. ok_inv E. rewrite Ea, Ea0, Ea1, Ea3.
  rewrite (mapM_fields input_fields_present _ _ _ input_of_json_Ok Ea2).
  now rewrite (mapM_fields request_fields_present _ _ _ spend_request_of_json_Ok Ea4).
Qed.

Lemma raw_form_Ok s r :
  raw_form s = Ok r -> raw_fields_present s = true.
Proof.
  unfold raw_form, raw_fields_present, coin_fields_present.
  intros E. ok_inv E.
  rewrite Ea. rewrite Ea in Ea2, Ea5. injection Ea2 as <-. injection Ea5 as <-.
  unfold has_field. now rewrite Ea0, Ea3, Ea6, Ea8, Ea10.
Qed.

Lemma spend_entries_Ok entries acc r :
  spend_entries entries acc = Ok r -> forallb entry_fields_present entries = true.
Proof.
  revert acc; induction entries as [|s entries IH]; intros acc E; [reflexivity|].
  cbn [spend_entries] in E. cbn [forallb]. unfold entry_fields_present at 1.
  destruct (contains "spend_requests" s) as [[|]|e]; cbn [bind] in E;
    [| |discriminate].
  - ok_inv E. rewrite (descriptive_form_Ok _ _ Ea). simpl. eauto.
  - destruct (contains "solution" s) as [[|]|e]; cbn [bind] in E;
      [| |discriminate].
    + ok_inv E. rewrite (raw_form_Ok _ _ Ea). simpl. eauto.
    + simpl. eauto.
Qed.

(** A descriptive entry without [input_coins] raises the [KeyError] of
    that field. *)
Lemma descriptive_form_without_coins d :
  has_key "input_coins" d = false ->
  descriptive_form (VDict d) = Err (KeyError "input_coins").
Proof.
  unfold descriptive_form, has_key. simpl.
  destruct (lookup "input_coins" d); [discriminate | reflexivity].
Qed.

(** A raw entry without [input_coin] raises the [KeyError] of that field. *)
Lemma raw_form_without_coin d :
  has_key "input_coin" d = false ->
  raw_form (VDict d) = Err (KeyError "input_coin").
Proof.
  unfold raw_form, has_key. simpl.
  destruct (lookup "input_coin" d); [discriminate | reflexivity].
Qed.

(** Once its fields are read, a descriptive entry gives what the assembler
    gives, be it an error. *)
Lemma descriptive_form_assembler s ic sr coins reqs input_coins spend_requests :
  getitem s "input_coins" = Ok ic -> getitem s "spend_requests" = Ok sr ->
  iter ic = Ok coins -> mapM input_of_json coins = Ok input_coins ->
  iter sr = Ok reqs -> mapM spend_request_of_json reqs = Ok spend_requests ->
  descriptive_form s
  = fst (create_unsigned_transaction (Some input_coins) (Some spend_requests) true).
Proof.
  unfold descriptive_form. intros -> -> E1 E2 E3 E4. cbn [bind].
  rewrite E1. cbn [bind]. rewrite E2. cbn [bind]. rewrite E3. cbn [bind].
  now rewrite E4.
Qed.

(** The raw form checks the revealed puzzle against the coin. *)
Lemma raw_form_mismatch s c ph_hex ph r parent_id parent amt_json amt puzzle_reveal :
  getitem s "input_coin" = Ok c ->
  getitem c "parent_id" = Ok parent_id -> hexstr_to_bytes parent_id = Ok parent ->
  getitem c "puzzle_hash" = Ok ph_hex -> hexstr_to_bytes ph_hex = Ok ph ->
  getitem c "amount" = Ok amt_json -> uint64 amt_json = Ok amt ->
  getitem s "puzzle_reveal" = Ok r -> binutils_assemble r = Ok puzzle_reveal ->
  get_tree_hash puzzle_reveal <> ph ->
  raw_form s = Err AssertionError_puzzle_reveal.
Proof.
  unfold raw_form. intros -> E1 E2 E3 E4 E5 E6 E7 E8 M. cbn [bind].
  rewrite E1. cbn [bind]. rewrite E2. cbn [bind]. rewrite E3. cbn [bind].
  rewrite E4. cbn [bind]. rewrite E5. cbn [bind]. rewrite E6. cbn [bind].
  rewrite E7. cbn [bind]. rewrite E8. cbn [bind puzzle_hash].
  destruct (bytes_eqb _ _) eqn:B; [|reflexivity].
  apply bytes_eqb_eq in B. contradiction.
Qed.

(** *** Missing fields *)

Ltac missing k :=
  right; exists k; split; [simpl; tauto | reflexivity].

Lemma input_of_json_readable i :
  input_readable i = true ->
  (input_fields_present i = true /\ exists r, input_of_json i = Ok r)
  \/ missing_field_error (input_of_json i).
Proof.
  unfold input_readable, input_of_json, input_fields_present,
    coin_fields_present, field_is, has_field, hex_ok, key_ok, missing_field_error.
  destruct i as [| | | | |d]; try discriminate. cbn [is_dict andb getitem].
  destruct (lookup "coin" d) as [c|]; [|intros _; missing "coin"].
  cbn [bind is_ok].
  destruct c as [| | | | |dc]; try discriminate. cbn [is_dict andb getitem].
  destruct (lookup "parent_id" dc) as [pid|]; [|intros _; missing "parent_id"].
  cbn [bind is_ok]. destruct (hexstr_to_bytes pid); [|discriminate].
  cbn [bind is_ok andb].
  destruct (lookup "puzzle_hash" dc) as [ph|]; [|intros _; missing "puzzle_hash"].
  cbn [bind is_ok]. destruct (hexstr_to_bytes ph); [|discriminate].
  cbn [bind is_ok andb].
  destruct (lookup "amount" dc) as [amt|]; [|intros _; missing "amount"].
  cbn [bind is_ok andb].
  destruct (lookup "pubkey" d) as [pk|]; [|intros _; missing "pubkey"].
  cbn [bind is_ok]. destruct (hexstr_to_bytes pk); [|discriminate].
  cbn [bind]. destruct (G1Element_from_bytes a1); [|discriminate].
  intros _. left. split; [reflexivity | eexists; reflexivity].
Qed.

Lemma spend_request_of_json_readable r :
  request_readable r = true ->
  (request_fields_present r = true /\ exists x, spend_request_of_json r = Ok x)
  \/ missing_field_error (spend_request_of_json r).
Proof.
  unfold request_readable, spend_request_of_json, request_fields_present,
    field_is, has_field, hex_ok, missing_field_error.
  destruct r as [| | | | |d]; try discriminate. cbn [is_dict andb getitem].
  destruct (lookup "puzzle_hash" d) as [ph|]; [|intros _; missing "puzzle_hash"].
  cbn [bind is_ok]. destruct (hexstr_to_bytes ph); [|discriminate].
  cbn [bind is_ok andb].
  destruct (lookup "amount" d) as [amt|]; [|intros _; missing "amount"].
  intros _. left. split; [reflexivity | eexists; reflexivity].
Qed.

Lemma mapM_readable {B} (f : value -> result B) (readable present : value -> bool) l :
  (forall v, readable v = true ->
             (present v = true /\ exists r, f v = Ok r) \/ missing_field_error (f v)) ->
  forallb readable l = true ->
  (forallb present l = true /\ exists r, mapM f l = Ok r)
  \/ missing_field_error (mapM f l).
Proof.
  intros Hf. induction l as [|v l IH]; cbn [forallb mapM]; intros R.
  - left. split; [reflexivity | eauto].
  - apply andb_true_iff in R. destruct R as [Rv Rl].
    destruct (Hf v Rv) as [[P [r E]]|(k & Hk & E)].
    + rewrite E, P. cbn [bind andb].
      destruct (IH Rl) as [[Pl [rl El]]|(k & Hk & El)].
      * rewrite El. cbn [bind]. left. split; [exact Pl | eexists; reflexivity].
      * rewrite El. cbn [bind]. right. exists k. auto.
    + rewrite E. right. exists k. auto.
Qed.

Lemma descriptive_form_readable s :
  descriptive_readable s = true ->
  descriptive_fields_present s = true \/ missing_field_error (descriptive_form s).
Proof.
  unfold descriptive_readable, descriptive_form, descriptive_fields_present,
    field_is, list_of, all_items.
  destruct s as [| | | | |d]; try discriminate. cbn [is_dict andb getitem].
  destruct (lookup "input_coins" d) as [ic|];
    [|intros _; unfold missing_field_error; missing "input_coins"].
  cbn [bind].
  destruct (lookup "spend_requests" d) as [sr|];
    [|intros _; unfold missing_field_error; missing "spend_requests"].
  cbn [bind]. intros R. apply andb_true_iff in R. destruct R as [Ri Rr].
  destruct ic as [| | | |coins|]; try discriminate.
  destruct sr as [| | | |reqs|]; try discriminate.
  cbn [iter bind].
  destruct (mapM_readable input_of_json input_readable input_fields_present
              coins input_of_json_readable Ri) as [[Pi [ri Ei]]|(k & Hk & Ei)].
  2: { rewrite Ei. right. exists k. auto. }
  rewrite Ei, Pi. cbn [bind andb].
  destruct (mapM_readable spend_request_of_json request_readable
              request_fields_present reqs spend_request_of_json_readable Rr)
    as [[Pr [rr Er]]|(k & Hk & Er)].
  - left. exact Pr.
  - rewrite Er. right. exists k. auto.
Qed.

Lemma raw_form_readable s :
  raw_readable s = true ->
  has_field s "solution" = true ->
  raw_fields_present s = true \/ missing_field_error (raw_form s).
Proof.
  unfold raw_readable, raw_form, raw_fields_present, coin_fields_present,
    field_is, has_field, hex_ok, missing_field_error.
  destruct s as [| | | | |d]; try discriminate. cbn [is_dict andb getitem].
  destruct (lookup "input_coin" d) as [c|]; [|intros _ _; missing "input_coin"].
  cbn [bind is_ok].
  destruct c as [| | | | |dc]; try discriminate. cbn [is_dict andb getitem].
  destruct (lookup "parent_id" dc) as [pid|]; [|intros _ _; missing "parent_id"].
  cbn [bind is_ok]. destruct (hexstr_to_bytes pid); [|discriminate].
  cbn [bind is_ok andb].
  destruct (lookup "puzzle_hash" dc) as [ph|]; [|intros _ _; missing "puzzle_hash"].
  cbn [bind is_ok]. destruct (hexstr_to_bytes ph); [|discriminate].
  cbn [bind is_ok andb].
  destruct (lookup "amount" dc) as [amt|]; [|intros _ _; missing "amount"].
  cbn [bind is_ok]. destruct (uint64 amt); [|discriminate].
  cbn [bind is_ok andb].
  destruct (lookup "puzzle_reveal" d) as [r|]; [|intros _ _; missing "puzzle_reveal"].
  cbn [bind is_ok andb]. intros _ S. left. exact S.
Qed.

(** An entry with one of the two keys that nothing is wrong with but a
    missing field raises the [KeyError] of a required field. *)
Lemma keyed_entry_missing_field s entries acc :
  entry_readable s = true ->
  entry_fields_present s = false ->
  missing_field_error (spend_entries (s :: entries) acc).
Proof.
  unfold entry_readable, entry_fields_present. cbn [spend_entries].
  destruct (contains "spend_requests" s) as [[|]|e] eqn:C; try discriminate.
  - intros R P. cbn [bind].
    destruct (descriptive_form_readable s R) as [P'|(k & Hk & E)].
    + congruence.
    + rewrite E. exists k. auto.
  - destruct (contains "solution" s) as [[|]|e] eqn:C'; try discriminate.
    intros R P. cbn [bind].
    assert (S : has_field s "solution" = true).
    { unfold raw_readable in R. destruct s; try discriminate.
      simpl in C'. injection C' as C'. unfold has_field, has_key in *. simpl.
      destruct (lookup "solution" d); [reflexivity | discriminate]. }
    destruct (raw_form_readable s R S) as [P'|(k & Hk & E)].
    + congruence.
    + rewrite E. exists k. auto.
Qed.

(** C8 (amended): an entry with neither of the keys [spend_requests] and
    [solution] is skipped, not rejected: the call gives what it gives on
    the description without that entry.  For the entries with one of the
    two keys: a bundle is returned only if each of them has all the fields
    of its form; once the entries before it are processed, an entry that
    lacks a field, and in which nothing else is wrong, makes the call raise
    the [KeyError] of a required field; and the error raised for an entry,
    by the parser itself, by the assembler or by the raw form's puzzle
    check, is the error of the call. *)
Theorem keyed_entries_need_their_fields json_tx j entries :
  json_loads json_tx = Ok j ->
  getitem j "spends" = Ok (VList entries) ->
  (forall b, create_unsigned_tx_from_json json_tx = Ok b ->
             forallb entry_fields_present entries = true)
  /\ (forall pre s post,
        entries = pre ++ s :: post ->
        (neither_form s = true ->
         create_unsigned_tx_from_json json_tx
         = spend_bundle_of_json (VDict [("spends", VList (pre ++ post))]))
        /\ (forall acc,
              spend_entries pre [] = Ok acc ->
              (entry_readable s = true -> entry_fields_present s = false ->
               exists k, In k required_fields
                         /\ create_unsigned_tx_from_json json_tx = Err (KeyError k))
              /\ (forall e,
                    (contains "spend_requests" s = Ok true
                     /\ descriptive_form s = Err e)
                    \/ (contains "spend_requests" s = Ok false
                        /\ contains "solution" s = Ok true /\ raw_form s = Err e) ->
                    create_unsigned_tx_from_json json_tx = Err e))).
Proof.
  intros Ej Es. unfold create_unsigned_tx_from_json, spend_bundle_of_json.
  rewrite Ej. cbn [bind]. rewrite Es. cbn [bind iter]. split.
  - intros b E. ok_inv E. eapply spend_entries_Ok; eauto.
  - intros pre s post ->. split.
    + intros N. change (getitem (VDict [("spends", VList (pre ++ post))]) "spends")
        with (Ok (VList (pre ++ post))). cbn [bind iter].
      rewrite !spend_entries_app.
      destruct (spend_entries pre []) as [acc|e]; cbn [bind]; [|reflexivity].
      now rewrite (spend_entries_skip _ _ _ N).
    + intros acc Epre. rewrite spend_entries_app, Epre. cbn [bind]. split.
      * intros R P.
        destruct (keyed_entry_missing_field s post acc R P) as (k & Hk & E).
        exists k. split; [exact Hk|]. now rewrite E.
      * intros e Hs. cbn [spend_entries].
        destruct Hs as [[C D]|(C & C' & R)].
        -- now rewrite C, D.
        -- now rewrite C, C', R.
Qed.

End ParserClaims.

(** ** The codec *)

Lemma fromhex_hex_byte (b : byte) (s : string) :
  fromhex (String (hex_digit (Byte.to_N b / 16))
                  (String (hex_digit (Byte.to_N b mod 16)) s))
  = (bs <- fromhex s ;; Ok (b :: bs)).
Proof. destruct b; reflexivity. Qed.

(** [bytes.fromhex] reads back what [bytes.hex] wrote. *)
Lemma fromhex_hex (bs : bytes) : fromhex (hex bs) = Ok bs.
Proof.
  induction bs as [|b bs IH]; [reflexivity|].
  cbn [hex]. cbv zeta. now rewrite fromhex_hex_byte, IH.
Qed.

(** Whatever the byte form of a bundle, a bundle that is read back from
    its bytes is read back from its hexadecimal encoding. *)
Lemma decode_encode_via_bytes `{Streamable} (b : SpendBundle) (bs : bytes) :
  SpendBundle_bytes b = Ok bs ->
  SpendBundle_from_bytes bs = Ok b ->
  encode_spendbundle b = Ok (hex bs) /\ decode_spendbundle (hex bs) = Ok b.
Proof.
  intros Eb Ed. unfold encode_spendbundle, decode_spendbundle.
  rewrite Eb. cbn [bind]. rewrite fromhex_hex. cbn [bind]. auto.
Qed.

(** *** The byte form *)

Lemma byte_of_Z_value (z : Z) : Z.of_N (Byte.to_N (byte_of_Z z)) = z mod 256.
Proof.
  unfold byte_of_Z.
  assert (R : 0 <= z mod 256 < 256) by (apply Z.mod_pos_bound; lia).
  destruct (Byte.of_N (Z.to_N (z mod 256))) as [b|] eqn:E.
  - apply Byte.to_of_N in E. rewrite E. lia.
  - apply Byte.of_N_None_iff in E. lia.
Qed.

Lemma of_big_endian_snoc (bs : bytes) (b : byte) :
  of_big_endian (bs ++ [b]) = 256 * of_big_endian bs + Z.of_N (Byte.to_N b).
Proof. unfold of_big_endian. now rewrite fold_left_app. Qed.

Lemma length_big_endian (n : nat) (z : Z) : List.length (big_endian n z) = n.
Proof.
  revert z; induction n as [|n IH]; intros z; simpl; [reflexivity|].
  rewrite length_app, IH. simpl. lia.
Qed.

Lemma of_big_endian_big_endian (n : nat) (z : Z) :
  of_big_endian (big_endian n z) = z mod 256 ^ Z.of_nat n.
Proof.
  revert z; induction n as [|n IH]; intros z.
  - simpl. now rewrite Z.mod_1_r.
  - cbn [big_endian]. rewrite of_big_endian_snoc, IH, byte_of_Z_value.
    rewrite Nat2Z.inj_succ, Z.pow_succ_r by lia.
    rewrite (Z.rem_mul_r z 256 (256 ^ Z.of_nat n)) by lia. lia.
Qed.

Lemma take_app what (a rest : bytes) :
  take what (List.length a) (a ++ rest) = Ok (a, rest).
Proof.
  unfold take. rewrite length_app.
  assert (L : (List.length a <=? List.length a + List.length rest)%nat = true)
    by (apply Nat.leb_le; lia).
  rewrite L. rewrite firstn_app, skipn_app, Nat.sub_diag, firstn_all, skipn_all.
  simpl. now rewrite app_nil_r.
Qed.

Section WireFacts.
Context `{Wire}.

Lemma CoinSolution_bytes_Ok cs :
  valid_coin cs.(cs_coin) = true ->
  exists z,
    amount cs.(cs_coin) = VInt z /\ 0 <= z < 2 ^ 64
    /\ List.length (parent_coin_info cs.(cs_coin)) = 32%nat
    /\ List.length (puzzle_hash cs.(cs_coin)) = 32%nat
    /\ CoinSolution_bytes cs
       = Ok (parent_coin_info cs.(cs_coin) ++ puzzle_hash cs.(cs_coin)
             ++ big_endian 8 z ++ Program_bytes cs.(cs_solution)).
Proof.
  unfold valid_coin, CoinSolution_bytes. intros V.
  apply andb_true_iff in V. destruct V as [V Va].
  rewrite V. apply andb_true_iff in V. destruct V as [Vp Vh].
  apply Nat.eqb_eq in Vp, Vh.
  destruct (amount (cs_coin cs)) as [| |z| | |]; try discriminate.
  rewrite Va. exists z. repeat split; try assumption; lia.
Qed.

Lemma CoinSolution_read_bytes cs bs rest :
  valid_coin cs.(cs_coin) = true ->
  (forall rest', Program_read (Program_bytes cs.(cs_solution) ++ rest')
                 = Ok (cs.(cs_solution), rest')) ->
  CoinSolution_bytes cs = Ok bs ->
  (72 <= List.length bs)%nat /\ CoinSolution_read (bs ++ rest) = Ok (cs, rest).
Proof.
  intros V P E.
  destruct (CoinSolution_bytes_Ok cs V) as (z & Ez & Rz & Lp & Lh & E').
  match type of E' with
  | _ = Ok ?x => assert (bs = x) by congruence; subst bs
  end.
  split.
  - rewrite !length_app, Lp, Lh, length_big_endian. lia.
  - unfold CoinSolution_read. rewrite <- !app_assoc.
    rewrite <- Lp at 1. rewrite take_app. cbn [bind fst snd].
    rewrite <- Lh at 1. rewrite take_app. cbn [bind fst snd].
    rewrite <- (length_big_endian 8 z) at 1. rewrite take_app. cbn [bind fst snd].
    rewrite P. cbn [bind fst snd].
    rewrite of_big_endian_big_endian.
    change (256 ^ Z.of_nat 8) with (2 ^ 64). rewrite Z.mod_small by lia.
    destruct cs as [[parent ph amt] sol]. simpl in *. now rewrite Ez.
Qed.

Lemma CoinSolutions_read_bytes (l : list CoinSolution) items signature fuel :
  forallb (fun cs => valid_coin cs.(cs_coin)) l = true ->
  Forall (fun cs => forall rest,
              Program_read (Program_bytes cs.(cs_solution) ++ rest)
              = Ok (cs.(cs_solution), rest)) l ->
  mapM CoinSolution_bytes l = Ok items ->
  List.length signature = 96%nat ->
  (List.length l <= fuel)%nat ->
  CoinSolutions_read fuel (List.concat items ++ signature) = Ok (l, signature).
Proof.
  revert items fuel; induction l as [|cs l IH]; intros items fuel V P E Ls Lf.
  - injection E as <-. simpl.
    destruct fuel; simpl; rewrite Ls; reflexivity.
  - cbn [forallb] in V. apply andb_true_iff in V. destruct V as [Vc V].
    inversion P as [|? ? Pc P']; subst.
    simpl in E. ok_inv E. injection E as <-.
    destruct (CoinSolution_read_bytes cs a (List.concat a0 ++ signature) Vc Pc Ea)
      as [La R].
    destruct fuel as [|fuel]; [simpl in Lf; lia|].
    cbn [List.concat CoinSolutions_read]. rewrite <- app_assoc.
    assert (N : (List.length (a ++ List.concat a0 ++ signature) =? 96)%nat = false).
    { apply Nat.eqb_neq. rewrite !length_app, Ls. lia. }
    rewrite N, R. cbn [bind fst snd].
    rewrite (IH a0 fuel V P' Ea0 Ls) by (simpl in Lf; lia).
    reflexivity.
Qed.

Lemma mapM_CoinSolution_bytes (l : list CoinSolution) :
  forallb (fun cs => valid_coin cs.(cs_coin)) l = true ->
  exists items,
    mapM CoinSolution_bytes l = Ok items
    /\ (List.length l <= List.length (List.concat items))%nat.
Proof.
  induction l as [|cs l IH]; intros V.
  - exists []. split; [reflexivity | simpl; lia].
  - cbn [forallb] in V. apply andb_true_iff in V. destruct V as [Vc V].
    destruct (IH V) as (items & E & L).
    destruct (CoinSolution_bytes_Ok cs Vc) as (z & _ & _ & Lp & _ & Ec).
    eexists. cbn [mapM]. rewrite Ec, E. cbn [bind]. split; [reflexivity|].
    cbn [List.concat List.length]. rewrite !length_app, Lp. lia.
Qed.

(** The byte form of the spec is read back, for every valid bundle. *)
Lemma SpendBundle_of_to_bytes (b : SpendBundle) :
  valid_bundle b ->
  exists bs, SpendBundle_to_bytes b = Ok bs /\ SpendBundle_of_bytes bs = Ok b.
Proof.
  intros (V & P & Ls & Es).
  destruct (mapM_CoinSolution_bytes _ V) as (items & E & L).
  unfold SpendBundle_to_bytes, SpendBundle_of_bytes.
  rewrite E. cbn [bind]. rewrite Ls. cbn [Nat.eqb].
  eexists. split; [reflexivity|].
  rewrite (CoinSolutions_read_bytes _ items _ _ V P E Ls)
    by (rewrite length_app; lia).
  cbn [bind fst snd]. rewrite Es. cbn [bind]. now destruct b.
Qed.

(** C7: with the byte form of the spec, decoding the encoding of a valid
    bundle gives the bundle back, and the bundle has one encoding. *)
Theorem decode_encode_spendbundle (b : SpendBundle) :
  valid_bundle b ->
  exists s, @encode_spendbundle _ wire_streamable b = Ok s
            /\ @decode_spendbundle _ wire_streamable s = Ok b
            /\ forall s', @encode_spendbundle _ wire_streamable b = Ok s' -> s' = s.
Proof.
  intros V. destruct (SpendBundle_of_to_bytes b V) as (bs & Eb & Ed).
  destruct (@decode_encode_via_bytes _ wire_streamable b bs Eb Ed) as [Ee Dd].
  exists (hex bs). repeat split; [assumption | assumption |].
  intros s' E'. rewrite Ee in E'. now injection E' as <-.
Qed.

End WireFacts.

(** * Further properties *)

(** ** The condition encoder *)

(** X1: what [make_solution] does in full: a negative fee is an
    [AssertionError], whatever the other arguments; then a non-empty [me]
    without the key [id] is a [KeyError]; otherwise the solution wraps
    the conditions grouped by kind, in the order create-coin,
    coin-consumed, time, my-coin-id, fee. *)
Theorem make_solution_outcome `{Helpers} primaries min_time me consumed fee :
  make_solution primaries min_time me consumed fee =
    if fee <? 0 then Err AssertionError_fee
    else if truthy me
    then match my_coin_id me with
         | Some id =>
             Ok (solution_for_conditions
                   (map create_coin_of (items primaries)
                    ++ map AssertCoinConsumed (items consumed)
                    ++ (if min_time >? 0 then [AssertTimeExceeds min_time] else [])
                    ++ [AssertMyCoinId id]
                    ++ (if fee =? 0 then [] else [AssertFee fee])))
         | None => Err (KeyError "id")
         end
    else Ok (solution_for_conditions
               (map create_coin_of (items primaries)
                ++ map AssertCoinConsumed (items consumed)
                ++ (if min_time >? 0 then [AssertTimeExceeds min_time] else [])
                ++ (if fee =? 0 then [] else [AssertFee fee]))).
Proof.
  unfold make_solution.
  destruct (make_solution_conditions primaries min_time me consumed fee)
    as [cl|e] eqn:E.
  - pose proof (make_solution_conditions_Ok _ _ _ _ _ _ E) as C.
    assert (K : is_ok (make_solution_conditions primaries min_time me consumed fee)
                = true) by now rewrite E.
    apply make_solution_conditions_is_ok in K. destruct K as [F M].
    assert (Hf : (fee <? 0) = false) by lia. rewrite Hf. cbn [bind].
    destruct (truthy me) eqn:T.
    + destruct (my_coin_id me) as [id|]; [now rewrite C|].
      now elim (M eq_refl).
    + assert (N : my_coin_id me = None).
      { unfold my_coin_id. now rewrite (truthy_items _ T). }
      rewrite N in C. now rewrite C.
  - cbn [bind]. unfold make_solution_conditions in E.
    destruct (fee >=? 0) eqn:F.
    + assert (Hf : (fee <? 0) = false) by lia. rewrite Hf.
      unfold my_coin_id, items.
      destruct (truthy me).
      * destruct (bdict_get "id" _); [discriminate|]. cbn [bind] in E. congruence.
      * discriminate.
    + assert (Hf : (fee <? 0) = true) by lia. rewrite Hf. congruence.
Qed.

(** X2: to [make_solution] an empty argument is the same as an absent
    one, for [primaries], for [me] and for [consumed], each whatever the
    other arguments are; and a [min_time] that is not positive is the same
    as zero. *)
Theorem make_solution_falsy_arguments `{Helpers} primaries min_time me consumed fee :
  make_solution (Some []) min_time me consumed fee
  = make_solution None min_time me consumed fee
  /\ make_solution primaries min_time (Some []) consumed fee
     = make_solution primaries min_time None consumed fee
  /\ make_solution primaries min_time me (Some []) fee
     = make_solution primaries min_time me None fee
  /\ (min_time <= 0 ->
      make_solution primaries min_time me consumed fee
      = make_solution primaries 0 me consumed fee).
Proof.
  rewrite !make_solution_outcome. repeat split.
  intros Ht. assert (T : (min_time >? 0) = false) by lia. now rewrite T.
Qed.

(** ** The assembler *)

Lemma py_sum_fold_Err (l : list value) (e : exn) :
  fold_left (fun acc v => a <- acc ;; z <- as_int v ;; Ok (a + z)) l (Err e) = Err e.
Proof. induction l as [|v l IH]; simpl; [reflexivity | exact IH]. Qed.

Lemma as_int_Err (v : value) (e : exn) : as_int v = Err e -> e = TypeError.
Proof. destruct v; simpl; congruence. Qed.

Lemma py_sum_fold_Err_kind (l : list value) (acc : Z) (e : exn) :
  fold_left (fun acc v => a <- acc ;; z <- as_int v ;; Ok (a + z)) l (Ok acc) = Err e ->
  e = TypeError.
Proof.
  revert acc; induction l as [|v l IH]; intros acc; simpl; [discriminate|].
  destruct (as_int v) as [z|e'] eqn:E; simpl.
  - apply IH.
  - rewrite py_sum_fold_Err. intros [= <-]. exact (as_int_Err _ _ E).
Qed.

(** The only exception [sum] raises here is the [TypeError] of an amount
    that is not an integer. *)
Lemma py_sum_Err (l : list value) (e : exn) : py_sum l = Err e -> e = TypeError.
Proof. apply py_sum_fold_Err_kind. Qed.

Section AssemblerExtras.
Context `{Helpers}.


Lemma spend_remaining_Err inputs spends e :
  spend_remaining inputs spends = Err e -> e = AttributeError "Coin" "pubkey".
Proof. destruct inputs; simpl; congruence. Qed.

Lemma assemble_Err origin others reqs validate e :
  assemble origin others reqs validate = Err e -> assembler_error e.
Proof.
  unfold assemble, assembler_error. intros E.
  destruct (py_sum (map (fun i => amount (coin i)) others)) as [s|e1] eqn:E1;
    cbn [bind] in E.
  2: { injection E as <-. left. exact (py_sum_Err _ _ E1). }
  destruct (as_int (amount (coin origin))) as [a|e2] eqn:E2; cbn [bind] in E.
  2: { injection E as <-. left. exact (as_int_Err _ _ E2). }
  match type of E with
  | bind ?m _ = _ => destruct m as [so|e3] eqn:E3; cbn [bind] in E
  end.
  2: { injection E as <-. left. destruct reqs as [reqs0|]; [|discriminate].
       destruct (py_sum (map sr_amount reqs0)) eqn:E4; [discriminate|].
       cbn [bind] in E3. injection E3 as <-. exact (py_sum_Err _ _ E4). }
  destruct (negb (validate && (fst so >=? s + a))).
  2: { injection E as <-. right. left. eauto. }
  destruct (bytes_eqb _ _).
  2: { injection E as <-. right. right. left. reflexivity. }
  rewrite make_solution_outputs in E. cbn [bind] in E.
  right. right. right. exact (spend_remaining_Err _ _ _ E).
Qed.

(** X3: the call raises the [ValueError] of line 85 exactly when it is
    given no list or an empty one. *)
Theorem no_inputs_error_iff (inputs : option (list Input)) reqs validate :
  fst (create_unsigned_transaction inputs reqs validate) = Err ValueError_no_inputs
  <-> inputs = None \/ inputs = Some [].
Proof.
  split.
  - destruct inputs as [[|i l]|]; auto.
    destruct (create_unsigned_transaction_Some (i :: l) reqs validate)
      as (origin & others & _ & ->); [discriminate|].
    cbn [fst]. intros E. apply assemble_Err in E.
    destruct E as [E|[(? & ? & E)|[E|E]]]; discriminate.
  - intros [->| ->]; reflexivity.
Qed.

(** X5: the outcome of a call on inputs with integer amounts, check by
    check: first the funds, when [validate] is set; then the origin's
    puzzle; then the loop, which only an empty list of other inputs
    passes. *)
Theorem assembler_outcome others origin reqs validate amts outs :
  input_amounts (others ++ [origin]) amts ->
  request_amounts reqs outs ->
  fst (create_unsigned_transaction (Some (others ++ [origin])) reqs validate) =
    if validate && (Zsum outs >=? Zsum amts)
    then Err (ValueError_amounts (Zsum amts) (Zsum outs))
    else if bytes_eqb (get_tree_hash (puzzle_for_pk origin.(pubkey)))
                      origin.(coin).(puzzle_hash)
    then match others with
         | [] => Ok [origin_solution origin (items reqs)]
         | _ :: _ => Err (AttributeError "Coin" "pubkey")
         end
    else Err AssertionError_origin_puzzle.
Proof.
  intros Ha Hr.
  destruct (create_unsigned_transaction_Some (others ++ [origin]) reqs validate)
    as (origin' & others' & Hl & ->).
  { destruct others; discriminate. }
  apply app_inj_tail in Hl. destruct Hl as [<- <-]. cbn [fst].
  apply input_amounts_app in Ha. destruct Ha as (amts' & oa & -> & Ha & Ho).
  rewrite (assemble_typed _ _ _ validate _ _ _ Ha Ho Hr).
  rewrite Zsum_app. simpl. now rewrite Z.add_0_r.
Qed.

(** X6: with [validate] set and integer amounts, the call raises the
    [ValueError] of the funds check exactly when the requested amounts
    reach the total of the inputs; equal totals are refused. *)
Theorem funds_check_iff others origin reqs amts outs :
  input_amounts (others ++ [origin]) amts ->
  request_amounts reqs outs ->
  (exists iv sv,
      fst (create_unsigned_transaction (Some (others ++ [origin])) reqs true)
      = Err (ValueError_amounts iv sv))
  <-> Zsum outs >= Zsum amts.
Proof.
  intros Ha Hr. rewrite (create_unsigned_transaction_typed _ _ _ true _ _ Ha Hr).
  cbn [andb]. destruct (Zsum outs >=? Zsum amts) eqn:C.
  - split; [lia | eauto].
  - split; [|lia]. intros (iv & sv & E).
    destruct (bytes_eqb _ _); [destruct others|]; discriminate.
Qed.

(** X7: a call returns only for a single input whose derived puzzle hashes
    to its coin's puzzle hash, and what it returns is that input's coin
    solution with one [CreateCoin] per request. *)
Theorem returns_only_for_one_matching_input
    (inputs : option (list Input)) reqs validate spends :
  fst (create_unsigned_transaction inputs reqs validate) = Ok spends ->
  exists origin,
    inputs = Some [origin] /\ spends = [origin_solution origin (items reqs)]
    /\ puzzle_matches origin.
Proof.
  destruct inputs as [l|]; [|discriminate].
  destruct l as [|i l]; [discriminate|].
  destruct (create_unsigned_transaction_Some (i :: l) reqs validate)
    as (origin & others & Hl & ->); [discriminate|].
  cbn [fst]. intros E. apply assemble_Ok in E. destruct E as (-> & -> & M).
  exists origin. rewrite Hl. auto.
Qed.

(** X8: a single input with a matching puzzle is assembled when the
    requests stay below its amount, and also, with [validate] unset,
    whatever the requests ask for; the caller's list of inputs is empty
    afterwards. *)
Theorem single_input_outcome origin reqs validate origin_amt outs :
  input_amounts [origin] [origin_amt] ->
  request_amounts reqs outs ->
  (validate = true -> Zsum outs < origin_amt) ->
  puzzle_matches origin ->
  create_unsigned_transaction (Some [origin]) reqs validate
  = (Ok [origin_solution origin (items reqs)], (Some [], reqs)).
Proof.
  intros Ha Hr Hv M.
  pose proof (create_unsigned_transaction_typed [] origin reqs validate _ _ Ha Hr) as E.
  cbn [app] in E.
  destruct (create_unsigned_transaction_Some [origin] reqs validate)
    as (o & l & Hl & E'); [discriminate|].
  change [origin] with ([] ++ [origin]) in Hl.
  apply app_inj_tail in Hl. destruct Hl as [<- <-].
  rewrite E' in *. cbn [fst] in E. rewrite E. f_equal.
  assert (C : validate && (Zsum outs >=? Zsum [origin_amt]) = false).
  { destruct validate; [|reflexivity]. specialize (Hv eq_refl). simpl. lia. }
  rewrite C. unfold puzzle_matches in M. now rewrite M, bytes_eqb_refl.
Qed.

End AssemblerExtras.

(** ** The parser *)

Section ParserExtras.
Context `{Helpers}.


(** What a descriptive entry that is accepted gives: the coin solution of
    its only coin. *)
Lemma descriptive_form_Ok_one s more :
  descriptive_form s = Ok more ->
  exists origin reqs,
    more = [origin_solution origin reqs] /\ puzzle_matches origin.
Proof.
  unfold descriptive_form. intros E. ok_inv E.
  apply create_unsigned_transaction_Ok in E.
  destruct E as (origin & _ & -> & M). eauto.
Qed.

Lemma raw_form_Ok_matching s one :
  raw_form s = Ok one -> reveals_matching_puzzle one.
Proof.
  unfold raw_form. intros E. ok_inv E. injection E as <-.
  apply bytes_eqb_eq in Ec. cbn [puzzle_hash] in Ec.
  exists a9, a11. split; [reflexivity | exact Ec].
Qed.

Lemma spend_entries_invariant (P : CoinSolution -> Prop) entries acc r :
  (forall s more, descriptive_form s = Ok more -> Forall P more) ->
  (forall s one, raw_form s = Ok one -> P one) ->
  spend_entries entries acc = Ok r -> Forall P acc -> Forall P r.
Proof.
  intros Hd Hr. revert acc; induction entries as [|s entries IH]; intros acc E Hacc.
  - injection E as <-. exact Hacc.
  - cbn [spend_entries] in E.
    destruct (contains "spend_requests" s) as [[|]|e]; cbn [bind] in E;
      [| |discriminate].
    + ok_inv E. apply (IH _ E). apply Forall_app. split; [exact Hacc | eauto].
    + destruct (contains "solution" s) as [[|]|e]; cbn [bind] in E;
        [| |discriminate].
      * ok_inv E. apply (IH _ E). unfold list_append. apply Forall_app.
        split; [exact Hacc|]. constructor; [eauto | constructor].
      * eauto.
Qed.

(** X10: every coin solution of a bundle that the parser returns reveals a
    puzzle whose tree hash is its coin's puzzle hash. *)
Theorem parsed_pairs_match json_tx (b : SpendBundle) :
  create_unsigned_tx_from_json json_tx = Ok b ->
  Forall reveals_matching_puzzle b.(coin_solutions).
Proof.
  unfold create_unsigned_tx_from_json, spend_bundle_of_json. intros E. ok_inv E.
  injection E as <-. cbn [coin_solutions].
  apply (spend_entries_invariant reveals_matching_puzzle a1 [] a2); auto.
  - intros s more D. apply descriptive_form_Ok_one in D.
    destruct D as (origin & reqs & -> & M).
    constructor; [|constructor].
    eexists _, _. split; [reflexivity | exact M].
  - intros s one R. exact (raw_form_Ok_matching _ _ R).
Qed.

Lemma spend_entries_length entries acc r :
  spend_entries entries acc = Ok r ->
  List.length r
  = (List.length acc
     + List.length (filter (fun s => negb (neither_form s)) entries))%nat.
Proof.
  revert acc; induction entries as [|s entries IH]; intros acc E.
  - injection E as <-. simpl. lia.
  - cbn [spend_entries] in E. cbn [filter]. unfold neither_form at 1.
    destruct (contains "spend_requests" s) as [[|]|e]; cbn [bind] in E;
      [| |discriminate].
    + ok_inv E. rewrite (IH _ E).
      apply descriptive_form_Ok_one in Ea. destruct Ea as (o & rq & -> & _).
      rewrite length_app. simpl. lia.
    + destruct (contains "solution" s) as [[|]|e]; cbn [bind] in E;
        [| |discriminate].
      * ok_inv E. rewrite (IH _ E). unfold list_append.
        rewrite length_app. simpl. lia.
      * rewrite (IH _ E). simpl. lia.
Qed.

(** X11: a bundle that the parser returns has one coin solution for each
    entry that has one of the two keys, and none for the others. *)
Theorem one_coin_solution_per_entry json_tx j entries (b : SpendBundle) :
  json_loads json_tx = Ok j ->
  getitem j "spends" = Ok (VList entries) ->
  create_unsigned_tx_from_json json_tx = Ok b ->
  List.length b.(coin_solutions)
  = List.length (filter (fun s => negb (neither_form s)) entries).
Proof.
  intros Ej Es. unfold create_unsigned_tx_from_json, spend_bundle_of_json.
  rewrite Ej. cbn [bind]. rewrite Es. cbn [bind iter]. intros E. ok_inv E.
  injection E as <-. cbn [coin_solutions].
  now rewrite (spend_entries_length _ _ _ Ea).
Qed.

(** The loop adds to what it was given: its result is the accumulator
    followed by what it gives from an empty one. *)
Lemma spend_entries_acc entries acc :
  spend_entries entries acc
  = (r <- spend_entries entries [] ;; Ok (acc ++ r)).
Proof.
  revert acc; induction entries as [|s entries IH]; intros acc.
  - simpl. now rewrite app_nil_r.
  - cbn [spend_entries].
    destruct (contains "spend_requests" s) as [[|]|e]; cbn [bind]; [| |reflexivity].
    + destruct (descriptive_form s) as [more|e]; cbn [bind]; [|reflexivity].
      rewrite (IH (acc ++ more)), (IH ([] ++ more)).
      destruct (spend_entries entries []); cbn [bind]; [|reflexivity].
      now rewrite app_assoc.
    + destruct (contains "solution" s) as [[|]|e]; cbn [bind];
        [| apply IH | reflexivity].
      destruct (raw_form s) as [one|e]; cbn [bind]; [|reflexivity].
      rewrite (IH (list_append acc one)), (IH (list_append [] one)).
      destruct (spend_entries entries []); cbn [bind]; [|reflexivity].
      unfold list_append. now rewrite app_assoc.
Qed.

(** X12: the bundle for two lists of entries put end to end holds the
    coin solutions of the first list followed by those of the second. *)
Theorem bundle_of_concatenation j1 j2 j entries1 entries2 (b1 b2 : SpendBundle) :
  getitem j1 "spends" = Ok (VList entries1) ->
  getitem j2 "spends" = Ok (VList entries2) ->
  getitem j "spends" = Ok (VList (entries1 ++ entries2)) ->
  spend_bundle_of_json j1 = Ok b1 ->
  spend_bundle_of_json j2 = Ok b2 ->
  spend_bundle_of_json j
  = Ok (mkSpendBundle (b1.(coin_solutions) ++ b2.(coin_solutions))
                      G2Element_infinity).
Proof.
  unfold spend_bundle_of_json. intros -> -> -> E1 E2. cbn [bind iter] in *.
  ok_inv E1. ok_inv E2. injection E1 as <-. injection E2 as <-.
  cbn [coin_solutions].
  rewrite spend_entries_app, Ea. cbn [bind].
  rewrite spend_entries_acc, Ea0. reflexivity.
Qed.

Lemma mapM_length {A B} (f : A -> result B) (l : list A) (r : list B) :
  mapM f l = Ok r -> List.length r = List.length l.
Proof.
  revert r; induction l as [|a l IH]; intros r E; simpl in E.
  - now injection E as <-.
  - ok_inv E. injection E as <-. simpl. f_equal. eauto.
Qed.

Lemma spend_entries_Ok_each entries acc r s :
  spend_entries entries acc = Ok r -> In s entries ->
  contains "spend_requests" s = Ok true ->
  exists more, descriptive_form s = Ok more.
Proof.
  revert acc; induction entries as [|s' entries IH]; intros acc E Hin C;
    [destruct Hin|].
  cbn [spend_entries] in E. destruct Hin as [->|Hin].
  - rewrite C in E. cbn [bind] in E. ok_inv E. eauto.
  - destruct (contains "spend_requests" s') as [[|]|e]; cbn [bind] in E;
      [| |discriminate].
    + ok_inv E. eauto.
    + destruct (contains "solution" s') as [[|]|e]; cbn [bind] in E;
        [| |discriminate].
      * ok_inv E. eauto.
      * eauto.
Qed.

(** X13: a description with a descriptive entry of two or more input
    coins is never parsed into a bundle: the assembler's loop over the
    coins that are not the origin raises. *)
Theorem several_coins_never_parse json_tx j entries d coins (b : SpendBundle) :
  json_loads json_tx = Ok j ->
  getitem j "spends" = Ok (VList entries) ->
  In (VDict d) entries ->
  has_key "spend_requests" d = true ->
  lookup "input_coins" d = Some (VList coins) ->
  (2 <= List.length coins)%nat ->
  create_unsigned_tx_from_json json_tx <> Ok b.
Proof.
  intros Ej Es Hin Hk Hc Hlen.
  unfold create_unsigned_tx_from_json, spend_bundle_of_json.
  rewrite Ej. cbn [bind]. rewrite Es. cbn [bind iter]. intros E. ok_inv E.
  destruct (spend_entries_Ok_each _ _ _ (VDict d) Ea Hin) as [more D].
  { simpl. now rewrite Hk. }
  unfold descriptive_form in D. cbn [getitem] in D. rewrite Hc in D.
  cbn [bind] in D. ok_inv D. cbn [iter] in Ea1. injection Ea1 as <-.
  apply mapM_length in Ea2.
  apply create_unsigned_transaction_Ok in D.
  destruct D as (origin & [= ->] & _). simpl in Ea2. lia.
Qed.

(** X14: the parser has the assembler check the funds: a descriptive
    entry whose requests reach the total of its coins raises the
    [ValueError] of the funds check, equal totals included. *)
Theorem overspending_entry_raises s ic sr coins reqs others origin
    spend_requests amts outs :
  getitem s "input_coins" = Ok ic -> getitem s "spend_requests" = Ok sr ->
  iter ic = Ok coins -> mapM input_of_json coins = Ok (others ++ [origin]) ->
  iter sr = Ok reqs -> mapM spend_request_of_json reqs = Ok spend_requests ->
  input_amounts (others ++ [origin]) amts ->
  request_amounts (Some spend_requests) outs ->
  Zsum outs >= Zsum amts ->
  descriptive_form s = Err (ValueError_amounts (Zsum amts) (Zsum outs)).
Proof.
  intros E1 E2 E3 E4 E5 E6 Ha Hr Hge.
  rewrite (descriptive_form_assembler s ic sr coins reqs _ _ E1 E2 E3 E4 E5 E6).
  rewrite (create_unsigned_transaction_typed _ _ _ true _ _ Ha Hr).
  assert (C : (Zsum outs >=? Zsum amts) = true) by lia.
  now rewrite C.
Qed.

(** X15: a descriptive entry with an empty list of input coins raises the
    [ValueError] for no inputs, once its requests are read. *)
Theorem entry_without_coins_raises s sr reqs spend_requests :
  getitem s "input_coins" = Ok (VList []) ->
  getitem s "spend_requests" = Ok sr ->
  iter sr = Ok reqs -> mapM spend_request_of_json reqs = Ok spend_requests ->
  descriptive_form s = Err ValueError_no_inputs.
Proof.
  intros E1 E2 E3 E4.
  now rewrite (descriptive_form_assembler s _ sr [] reqs [] _ E1 E2 eq_refl eq_refl E3 E4).
Qed.

(** X16: the raw form checks the puzzle it is given: once the coin and
    the puzzle are read, a puzzle whose tree hash is not the coin's
    puzzle hash raises the [AssertionError] of line 158, before the
    solution is looked at. *)
Theorem raw_form_checks_puzzle
    s c ph_hex ph r parent_id parent amt_json amt puzzle_reveal :
  getitem s "input_coin" = Ok c ->
  getitem c "parent_id" = Ok parent_id -> hexstr_to_bytes parent_id = Ok parent ->
  getitem c "puzzle_hash" = Ok ph_hex -> hexstr_to_bytes ph_hex = Ok ph ->
  getitem c "amount" = Ok amt_json -> uint64 amt_json = Ok amt ->
  getitem s "puzzle_reveal" = Ok r -> binutils_assemble r = Ok puzzle_reveal ->
  get_tree_hash puzzle_reveal <> ph ->
  raw_form s = Err AssertionError_puzzle_reveal.
Proof.
  unfold raw_form. intros -> E1 E2 E3 E4 E5 E6 E7 E8 M. cbn [bind].
  rewrite E1. cbn [bind]. rewrite E2. cbn [bind]. rewrite E3. cbn [bind].
  rewrite E4. cbn [bind]. rewrite E5. cbn [bind]. rewrite E6. cbn [bind].
  rewrite E7. cbn [bind]. rewrite E8. cbn [bind puzzle_hash].
  destruct (bytes_eqb _ _) eqn:B; [|reflexivity].
  apply bytes_eqb_eq in B. contradiction.
Qed.

End ParserExtras.

(** ** The codec *)

Lemma fromhex_hex_app (a : bytes) (s : string) :
  fromhex (hex a ++ s) = (bs <- fromhex s ;; Ok (a ++ bs)).
Proof.
  induction a as [|b a IH]; cbn [hex]; cbv zeta.
  - simpl. now destruct (fromhex s).
  - cbn [String.append]. rewrite fromhex_hex_byte, IH.
    now destruct (fromhex s).
Qed.

(** X17: whatever the byte form of bundles, a bundle that is read back
    from its bytes is read back from its encoding: the hexadecimal layer
    loses nothing. *)
Theorem hex_layer_round_trip `{Streamable} (b : SpendBundle) (bs : bytes) :
  SpendBundle_bytes b = Ok bs ->
  SpendBundle_from_bytes bs = Ok b ->
  exists s, encode_spendbundle b = Ok s /\ decode_spendbundle s = Ok b.
Proof.
  intros Eb Ed. exists (hex bs). unfold encode_spendbundle, decode_spendbundle.
  rewrite Eb. cbn [bind]. split; [reflexivity|].
  rewrite fromhex_hex. cbn [bind]. exact Ed.
Qed.

(** White space after an encoding is ignored. *)
Lemma trailing_space_ignored `{Streamable} (s : string) (c : ascii) :
  is_space c = true ->
  forall bs, fromhex s = Ok bs -> fromhex (s ++ String c EmptyString) = Ok bs.
Proof.
  intros Hc. 
  assert (G : forall n s, (String.length s <= n)%nat -> forall bs,
             fromhex s = Ok bs -> fromhex (s ++ String c EmptyString) = Ok bs).
  { induction n as [|n IH]; intros s0 L bs0 E.
    - destruct s0; [|simpl in L; lia]. simpl. now rewrite Hc.
    - destruct s0 as [|x s1]; [simpl; now rewrite Hc|].
      cbn [String.append fromhex] in *. destruct (is_space x).
      + apply IH; [simpl in L; lia | exact E].
      + destruct s1 as [|y s2]; [discriminate|]. cbn [String.append].
        destruct (hex_value x); [|discriminate].
        destruct (hex_value y); [|discriminate].
        destruct (fromhex s2) as [bs2|] eqn:E2; [|discriminate].
        rewrite (IH s2 ltac:(simpl in L; lia) bs2 E2). exact E. }
  intros bs. apply (G (String.length s)). lia.
Qed.

(** X18: an encoding followed by one more character is rejected as
    hexadecimal text, before the reader of the byte form is called, as is
    an encoding cut in the middle of a byte; unless the character is
    white space, which is ignored. *)
Theorem dangling_character `{Streamable} (b : SpendBundle) s (c : ascii) :
  encode_spendbundle b = Ok s ->
  decode_spendbundle (s ++ String c EmptyString)
  = if is_space c then decode_spendbundle s else Err ValueError_fromhex.
Proof.
  unfold encode_spendbundle, decode_spendbundle. intros E. ok_inv E.
  injection E as <-. destruct (is_space c) eqn:Hc.
  - now rewrite (trailing_space_ignored (hex a) c Hc a (fromhex_hex a)), fromhex_hex.
  - rewrite fromhex_hex_app. cbn [fromhex]. now rewrite Hc.
Qed.

(** ** The command line *)

Section CommandLineFacts.
Context {H : Helpers} {S : Streamable} {W : Wallet}.


Lemma all_events_bind {A B} P (m : io A) (k : A -> io B) :
  all_events P m -> (forall a, all_events P (k a)) -> all_events P (io_bind m k).
Proof.
  unfold all_events, io_bind. destruct m as [t [a|h]]; cbn [fst snd]; intros Hm Hk.
  - rewrite forallb_app, Hm. apply Hk.
  - now rewrite app_nil_r.
Qed.

Lemma all_events_lift {A} P (r : result A) : all_events P (lift r).
Proof. destruct r; reflexivity. Qed.

Lemma all_events_emit P (e : event) : P e = true -> all_events P (emit e).
Proof. unfold all_events. simpl. now intros ->. Qed.

(** Builds the proof that every event of a run satisfies a predicate,
    following the run's binds and tests. *)
Ltac solve_all_events :=
  repeat first
    [ apply all_events_bind; [|intros ?]
    | apply all_events_lift
    | apply all_events_emit; reflexivity
    | reflexivity
    | match goal with
      | |- all_events _ (if ?c then _ else _) => destruct c
      | |- all_events _ (match ?x with _ => _ end) => destruct x
      end ].

(** Unfolds a run of the handler on a given command. *)
Ltac run :=
  unfold handler, sign_spendbundle, push_spendbundle, view_coins, fail_cmd,
    first_arg, io_bind, io_ret, emit, lift, parser_exit;
  cbn -[create_unsigned_tx_from_json decode_spendbundle view_each].

Ltac run_cases :=
  repeat match goal with
         | |- context [match ?r with Ok _ => _ | Err _ => _ end] =>
             destruct r; cbn -[create_unsigned_tx_from_json decode_spendbundle view_each]
         end.

Lemma view_each_no_push coins : all_events (fun e => negb (is_push e)) (view_each coins).
Proof. induction coins as [|c coins IH]; cbn [view_each]; solve_all_events. exact IH. Qed.

Lemma not_listed command :
  ~ In command command_list -> existsb (String.eqb command) command_list = false.
Proof.
  intros N. destruct (existsb (String.eqb command) command_list) eqn:E; [|reflexivity].
  apply existsb_exists in E. destruct E as (c & Hin & Heq).
  apply String.eqb_eq in Heq. subst c. contradiction.
Qed.

(** X19: a command that is not in [command_list] gets the help text and
    exit status 1, whatever its arguments; nothing is parsed and the
    wallet is not contacted. *)
Theorem unknown_command_exits command cmd_args :
  ~ In command command_list ->
  handler command cmd_args = ([HelpPrinted], inr (Exited 1)).
Proof.
  intros N. unfold handler. now rewrite (not_listed _ N).
Qed.

(** X20: a listed command given no argument, or more than one, gets the
    message for too few or too many arguments, the help text and exit
    status 1.  This holds for [verify], [encode] and [view-coins] too,
    which do not read their argument. *)
Theorem wrong_argument_count_exits command cmd_args :
  In command command_list ->
  List.length (match cmd_args with Some l => l | None => [] end) <> 1%nat ->
  handler command cmd_args
  = ([Printed (String "010"%char
                 ((match cmd_args with
                   | Some (_ :: _) => "Too many"
                   | _ => "Too few"
                   end) ++ " arguments to command 'chia tx " ++ command ++ "'"));
      HelpPrinted],
     inr (Exited 1)).
Proof.
  intros Hin Hlen. unfold handler.
  assert (E : existsb (String.eqb command) command_list = true).
  { apply existsb_exists. exists command. split; [exact Hin | apply String.eqb_refl]. }
  rewrite E. cbn [negb].
  destruct cmd_args as [[|a [|a' l]]|]; try reflexivity.
  simpl in Hlen. congruence.
Qed.

(** X21: of the listed commands, [get-address] is the one that the
    handler does not recognise: with one argument, the run that prints
    that message and leaves with status 1 is the run of [get-address]
    and of no other listed command. *)
Theorem only_get_address_unrecognised command a :
  In command command_list ->
  handler command (Some [a])
  = ([Printed ("command '" ++ command ++ "' is not recognised")], inr (Exited 1))
  <-> command = "get-address".
Proof.
  intros Hin. split; [|intros ->; reflexivity].
  unfold command_list in Hin. simpl in Hin.
  destruct Hin as [<-|[<-|[<-|[<-|[<-|[<-|[<-|[<-|[]]]]]]]]];
    try reflexivity; run; run_cases; discriminate.
Qed.

(** X22: when the description does not parse, [create], [sign] and [push]
    end with the parser's exception and no event of their own: the
    handler prints nothing and the wallet is not contacted. *)
Theorem parse_failure_ends_run command json_tx e :
  In command ["create"; "sign"; "push"] ->
  create_unsigned_tx_from_json json_tx = Err e ->
  handler command (Some [json_tx]) = ([], inr (Failed e)).
Proof.
  intros Hin E. destruct Hin as [<-|[<-|[<-|[]]]]; run; now rewrite E.
Qed.

(** X23: no command but [push] sends a push request to the wallet. *)
Theorem only_push_pushes command cmd_args :
  command <> "push" ->
  forallb (fun e => negb (is_push e)) (fst (handler command cmd_args)) = true.
Proof.
  intros N. apply String.eqb_neq in N.
  change (all_events (fun e => negb (is_push e)) (handler command cmd_args)).
  unfold handler. rewrite N.
  unfold fail_cmd, first_arg, sign_spendbundle, view_coins, parser_exit, io_ret.
  solve_all_events. apply view_each_no_push.
Qed.

Lemma view_each_wallet_events coins :
  all_events (fun e => negb (is_wallet_event e)) (view_each coins).
Proof. induction coins as [|c coins IH]; cbn [view_each]; solve_all_events. exact IH. Qed.

(** X24: the wallet is contacted by [sign], [push] and [view-coins] only:
    a run of any other command has no wallet event. *)
Theorem wallet_contacted_by_three_commands command cmd_args :
  ~ In command ["sign"; "push"; "view-coins"] ->
  forallb (fun e => negb (is_wallet_event e)) (fst (handler command cmd_args)) = true.
Proof.
  intros N.
  assert (N1 : String.eqb command "sign" = false)
    by (apply String.eqb_neq; intros ->; apply N; simpl; auto).
  assert (N2 : String.eqb command "push" = false)
    by (apply String.eqb_neq; intros ->; apply N; simpl; auto).
  assert (N3 : String.eqb command "view-coins" = false)
    by (apply String.eqb_neq; intros ->; apply N; simpl; auto).
  change (all_events (fun e => negb (is_wallet_event e)) (handler command cmd_args)).
  unfold handler. rewrite N1, N2, N3.
  unfold fail_cmd, first_arg, parser_exit, io_ret.
  solve_all_events.
Qed.

(** X25: what [push] sends: the run signs first, sending the encoding of
    the parsed bundle, and then pushes the encoding of the bundle that
    came back signed, not of the parsed one. *)
Theorem push_sends_signed_bundle json_tx (b signed : SpendBundle) bs reply bs' :
  create_unsigned_tx_from_json json_tx = Ok b ->
  WalletRpcClient_create = Ok tt ->
  SpendBundle_bytes b = Ok bs ->
  sign_spend_bundle (hex bs) = Ok reply ->
  decode_spendbundle reply = Ok signed ->
  SpendBundle_bytes signed = Ok bs' ->
  push_spend_bundle (hex bs') = Ok tt ->
  handler "push" (Some [json_tx])
  = ([Connecting; SignRequested (hex bs); Debugged signed; Debugged signed;
      Connecting; PushRequested (hex bs'); Closed],
     inl tt).
Proof.
  intros E1 E2 E3 E4 E5 E6 E7. run.
  rewrite E1. cbn -[decode_spendbundle]. rewrite E2. cbn -[decode_spendbundle].
  rewrite E3. cbn -[decode_spendbundle]. rewrite E4. cbn -[decode_spendbundle].
  rewrite E5. cbn. rewrite E6. cbn. rewrite E7. reflexivity.
Qed.

(** X26: [decode] undoes [create]: the line that [create] prints for a
    description is an argument on which [decode] shows the bundle of that
    description, when the byte form of the bundle reads back. *)
Theorem decode_shows_what_create_printed json_tx (b : SpendBundle) bs :
  create_unsigned_tx_from_json json_tx = Ok b ->
  SpendBundle_bytes b = Ok bs ->
  SpendBundle_from_bytes bs = Ok b ->
  handler "create" (Some [json_tx]) = ([Debugged b; Printed (hex bs)], inl tt)
  /\ handler "decode" (Some [hex bs]) = ([Debugged b; BundlePrinted b], inl tt).
Proof.
  intros E1 E2 E3. split.
  - run. rewrite E1. cbn. now rewrite E2.
  - run. unfold decode_spendbundle. rewrite fromhex_hex. cbn [bind].
    now rewrite E3.
Qed.

Lemma view_each_never_closes coins :
  all_events (fun e => negb (is_closed e)) (view_each coins).
Proof.
  induction coins as [|c coins IH]; cbn [view_each]; solve_all_events. exact IH.
Qed.

(** X27: a run of [sign] never closes a connection to the wallet,
    whatever its arguments and whatever the wallet answers. *)
Theorem sign_never_closes cmd_args :
  forallb (fun e => negb (is_closed e)) (fst (handler "sign" cmd_args)) = true.
Proof.
  change (all_events (fun e => negb (is_closed e)) (handler "sign" cmd_args)).
  unfold handler. cbn [String.eqb Ascii.eqb Bool.eqb].
  unfold fail_cmd, first_arg, sign_spendbundle, parser_exit, io_ret.
  solve_all_events.
Qed.

(** X28: [view_coins] closes its connection exactly when it gets to its
    end: a coin without a readable puzzle, or a wallet that does not
    answer, leaves the run without the closing event. *)
Theorem view_coins_closes_iff_done args :
  In Closed (fst (view_coins args)) <-> snd (view_coins args) = inl tt.
Proof.
  unfold view_coins, io_bind, emit, lift. cbn [fst snd app].
  destruct WalletRpcClient_create as [[]|e]; cbn [fst snd app].
  2: { split; [intros [E|[]]; discriminate | discriminate]. }
  destruct get_spendable_coins as [coins|e]; cbn [fst snd app].
  2: { split; [intros [E|[E|[]]]; discriminate | discriminate]. }
  pose proof (view_each_never_closes coins) as N. unfold all_events in N.
  assert (K : ~ In Closed (fst (view_each coins))).
  { intros Hin. rewrite forallb_forall in N. specialize (N _ Hin). discriminate. }
  destruct (snd (view_each coins)) as [[]|h].
  - split; [reflexivity|]. intros _. right. right. right. apply in_or_app.
    right. simpl. auto.
  - split; [|discriminate]. intros [E|[E|[E|Hin]]]; try discriminate.
    rewrite app_nil_r in Hin. contradiction.
Qed.

End CommandLineFacts.

(** ** The claims on sample data *)



Lemma two_inputs_never_assemble_witness :
  fst (create_unsigned_transaction (Some [Sample.input0; Sample.input1])
                                   (Some [Sample.request0]) true)
  <> Ok [].
Proof.
  apply (two_inputs_never_assemble [Sample.input0; Sample.input1]).
  simpl. lia.
Defined.

Lemma sufficient_funds_two_inputs_raise_witness :
  fst (create_unsigned_transaction (Some [Sample.input0; Sample.input1])
                                   (Some [Sample.request0]) true)
  = Err (AttributeError "Coin" "pubkey").
Proof.
  apply (sufficient_funds_two_inputs_raise
           [Sample.input0; Sample.input1] (Some [Sample.request0]) [100; 50] [30]).
  - simpl. lia.
  - reflexivity.
  - reflexivity.
  - simpl. lia.
  - intros i [<-|[<-|[]]]; reflexivity.
Defined.

Lemma mismatched_input_unreported_witness :
  fst (create_unsigned_transaction (Some [Sample.input_bad; Sample.input1])
                                   (Some [Sample.request0]) true)
  = Err (AttributeError "Coin" "pubkey").
Proof.
  apply (mismatched_input_unreported
           Sample.input_bad [] Sample.input1 (Some [Sample.request0]) true
           [100; 50] [30]).
  - vm_compute. discriminate.
  - reflexivity.
  - reflexivity.
  - reflexivity.
  - intros _. simpl. lia.
Defined.


(** C5, refuted as stated: the call does not leave the list of inputs as
    it was; after a call on one input the caller's list is empty. *)
Lemma inputs_list_is_popped :
  ~ (forall (H : Helpers) inputs reqs validate,
       snd (create_unsigned_transaction inputs reqs validate) = (inputs, reqs)).
Proof.
  intros K.
  specialize (K Sample.helpers (Some [Sample.input1]) (Some [Sample.request0]) true).
  apply (f_equal (fun after => option_map (@List.length (@Input Sample.helpers)) (fst after))) in K.
  discriminate K.
Qed.

Lemma parsed_bundle_is_unsigned_witness :
  @create_unsigned_tx_from_json Sample.helpers (Sample.description Sample.raw_entry)
  = Ok (mkSpendBundle
          [mkCoinSolution (mkCoin [x00] [x01; x80] (VInt 5))
                          (Program_to [Atom [x80]; Atom [x01]])]
          G2Element_infinity)
  /\ aggregated_signature
       (@mkSpendBundle Sample.helpers
          [mkCoinSolution (mkCoin [x00] [x01; x80] (VInt 5))
                          (Program_to [Atom [x80]; Atom [x01]])]
          G2Element_infinity)
     = G2Element_infinity.
Proof.
  assert (E : @create_unsigned_tx_from_json Sample.helpers
                (Sample.description Sample.raw_entry)
              = Ok (mkSpendBundle
                      [mkCoinSolution (mkCoin [x00] [x01; x80] (VInt 5))
                                      (Program_to [Atom [x80]; Atom [x01]])]
                      G2Element_infinity))
    by reflexivity.
  split; [exact E|].
  exact (parsed_bundle_is_unsigned (Sample.description Sample.raw_entry) _ E).
Defined.

Lemma entries_of_neither_form_are_omitted_witness :
  @create_unsigned_tx_from_json Sample.helpers
    (Sample.description (Sample.other_entry ++ ", " ++ Sample.other_entry))
  = Ok (mkSpendBundle [] G2Element_infinity).
Proof.
  refine (proj2 (entries_of_neither_form_are_omitted
                   (Sample.description (Sample.other_entry ++ ", " ++ Sample.other_entry))
                   (VDict [("spends", VList [VDict [("memo", VStr "hello")];
                                             VDict [("memo", VStr "hello")]])])
                   [VDict [("memo", VStr "hello")]; VDict [("memo", VStr "hello")]]
                   _ _) _).
  - vm_compute. reflexivity.
  - reflexivity.
  - reflexivity.
Defined.

(** C8, refuted as stated: a raw entry that lacks its [solution] is not
    rejected; the call returns a bundle without it. *)
Lemma entry_without_solution_is_dropped :
  ~ (forall (H : Helpers) json_tx j entries s,
       json_loads json_tx = Ok j ->
       getitem j "spends" = Ok (VList entries) ->
       In s entries ->
       missing_required_field s = true ->
       exists k, create_unsigned_tx_from_json json_tx = Err (KeyError k)).
Proof.
  intros K.
  pose (text := Sample.description Sample.sized_entry_without_solution).
  assert (J : @json_loads Sample.helpers text = Ok (Sample.parsed text))
    by (vm_compute; reflexivity).
  assert (G : getitem (Sample.parsed text) "spends"
              = Ok (VList [Sample.parsed Sample.sized_entry_without_solution]))
    by (vm_compute; reflexivity).
  assert (M : missing_required_field
                (Sample.parsed Sample.sized_entry_without_solution) = true)
    by (vm_compute; reflexivity).
  destruct (K Sample.helpers _ _ _ _ J G (or_introl eq_refl) M) as [k E].
  apply (f_equal is_ok) in E. discriminate E.
Qed.

(** The entry that lacks its [puzzle_reveal] is reached and raises the
    [KeyError] of that field. *)
Lemma entry_without_reveal_raises :
  @create_unsigned_tx_from_json Sample.helpers
    (Sample.description (Sample.sized_entry ++ ", " ++ Sample.other_entry ++ ", "
                         ++ Sample.sized_entry_without_reveal))
  = Err (KeyError "puzzle_reveal").
Proof. reflexivity. Qed.

(** The fields are read in order: when a field that comes before the
    missing one is not readable, the reader's error is the one raised. *)
Lemma unreadable_field_comes_first :
  @create_unsigned_tx_from_json Sample.helpers
    (Sample.description Sample.sized_entry_unreadable)
  = Err ValueError_fromhex
  /\ @entry_readable Sample.helpers (Sample.parsed Sample.sized_entry_unreadable)
     = false
  /\ entry_fields_present (Sample.parsed Sample.sized_entry_unreadable) = false.
Proof. repeat split; vm_compute; reflexivity. Qed.

Lemma keyed_entries_need_their_fields_witness :
  (exists k,
     In k required_fields
     /\ @create_unsigned_tx_from_json Sample.helpers
          (Sample.description (Sample.sized_entry ++ ", " ++ Sample.other_entry ++ ", "
                               ++ Sample.sized_entry_without_reveal))
        = Err (KeyError k))
  /\ @create_unsigned_tx_from_json Sample.helpers
       (Sample.description (Sample.sized_entry ++ ", " ++ Sample.other_entry ++ ", "
                            ++ Sample.sized_entry_without_reveal))
     = @spend_bundle_of_json Sample.helpers
         (VDict [("spends",
                  VList ([Sample.parsed Sample.sized_entry]
                         ++ [Sample.parsed Sample.sized_entry_without_reveal]))])
  /\ @create_unsigned_tx_from_json Sample.helpers
       (Sample.description (Sample.sized_entry ++ ", " ++ Sample.sized_entry_mismatched))
     = Err AssertionError_puzzle_reveal.
Proof.
  pose (text := Sample.description
                  (Sample.sized_entry ++ ", " ++ Sample.other_entry ++ ", "
                   ++ Sample.sized_entry_without_reveal)).
  pose (text' := Sample.description
                   (Sample.sized_entry ++ ", " ++ Sample.sized_entry_mismatched)).
  assert (J : @json_loads Sample.helpers text = Ok (Sample.parsed text))
    by (vm_compute; reflexivity).
  assert (G : getitem (Sample.parsed text) "spends"
              = Ok (VList ([Sample.parsed Sample.sized_entry]
                           ++ Sample.parsed Sample.other_entry
                           :: [Sample.parsed Sample.sized_entry_without_reveal])))
    by (vm_compute; reflexivity).
  assert (J' : @json_loads Sample.helpers text' = Ok (Sample.parsed text'))
    by (vm_compute; reflexivity).
  assert (G' : getitem (Sample.parsed text') "spends"
               = Ok (VList ([Sample.parsed Sample.sized_entry]
                            ++ Sample.parsed Sample.sized_entry_mismatched :: [])))
    by (vm_compute; reflexivity).
  split; [|split].
  - refine (proj1 (proj2 (proj2 (keyed_entries_need_their_fields text _ _ J G)
                            [Sample.parsed Sample.sized_entry; Sample.parsed Sample.other_entry]
                            (Sample.parsed Sample.sized_entry_without_reveal) []
                            _) _ _) _ _).
    + vm_compute; reflexivity.
    + reflexivity.
    + vm_compute; reflexivity.
    + vm_compute; reflexivity.
  - refine (proj1 (proj2 (keyed_entries_need_their_fields text _ _ J G)
                     [Sample.parsed Sample.sized_entry]
                     (Sample.parsed Sample.other_entry)
                     [Sample.parsed Sample.sized_entry_without_reveal]
                     eq_refl) _).
    vm_compute; reflexivity.
  - refine (proj2 (proj2 (proj2 (keyed_entries_need_their_fields text' _ _ J' G')
                            [Sample.parsed Sample.sized_entry]
                            (Sample.parsed Sample.sized_entry_mismatched) []
                            eq_refl) _ _) _ _).
    + reflexivity.
    + right. repeat split; vm_compute; reflexivity.
Defined.

Lemma decode_encode_spendbundle_witness :
  exists s,
    @encode_spendbundle _ (@wire_streamable _ Sample.wire) Sample.bundle0 = Ok s
    /\ @decode_spendbundle _ (@wire_streamable _ Sample.wire) s = Ok Sample.bundle0
    /\ forall s',
         @encode_spendbundle _ (@wire_streamable _ Sample.wire) Sample.bundle0 = Ok s'
         -> s' = s.
Proof.
  apply (@decode_encode_spendbundle _ Sample.wire Sample.bundle0).
  split; [reflexivity|]. split.
  - repeat constructor; intros rest; reflexivity.
  - split; reflexivity.
Defined.

(** ** The further properties on sample data *)

Lemma make_solution_falsy_arguments_witness :
  @make_solution Sample.helpers (Some [Sample.primaryA]) (-5)
                 (Some [("id", [x01])]) (Some [[x02]]) 3
  = @make_solution Sample.helpers (Some [Sample.primaryA]) 0
                   (Some [("id", [x01])]) (Some [[x02]]) 3.
Proof.
  apply (@make_solution_falsy_arguments Sample.helpers (Some [Sample.primaryA]) (-5)
           (Some [("id", [x01])]) (Some [[x02]]) 3).
  lia.
Defined.

Lemma assembler_outcome_witness :
  fst (create_unsigned_transaction (Some [Sample.input_bad])
                                   (Some [Sample.request_large]) true)
  = Err (ValueError_amounts 100 500).
Proof.
  apply (@assembler_outcome Sample.helpers [] Sample.input_bad
           (Some [Sample.request_large]) true [100] [500]); reflexivity.
Defined.

Lemma funds_check_iff_witness :
  (exists iv sv,
      fst (create_unsigned_transaction (Some [Sample.input0; Sample.input1])
                                       (Some [Sample.request_large]) true)
      = Err (ValueError_amounts iv sv))
  <-> 500 >= 150.
Proof.
  apply (@funds_check_iff Sample.helpers [Sample.input0] Sample.input1
           (Some [Sample.request_large]) [100; 50] [500]); reflexivity.
Defined.

Lemma returns_only_for_one_matching_input_witness :
  exists origin,
    Some [Sample.input1] = Some [origin]
    /\ [origin_solution Sample.input1 [Sample.request0]]
       = [origin_solution origin (items (Some [Sample.request0]))]
    /\ puzzle_matches origin.
Proof.
  apply (@returns_only_for_one_matching_input Sample.helpers
           (Some [Sample.input1]) (Some [Sample.request0]) true).
  reflexivity.
Defined.

Lemma single_input_outcome_witness :
  create_unsigned_transaction (Some [Sample.input1])
                              (Some [Sample.request_large]) false
  = (Ok [origin_solution Sample.input1 [Sample.request_large]],
     (Some [], Some [Sample.request_large])).
Proof.
  apply (@single_input_outcome Sample.helpers Sample.input1
           (Some [Sample.request_large]) false 50 [500]).
  - reflexivity.
  - reflexivity.
  - discriminate.
  - reflexivity.
Defined.

Lemma parsed_pairs_match_witness :
  Forall (@reveals_matching_puzzle Sample.helpers)
         [mkCoinSolution (mkCoin [x00] [x01; x80] (VInt 5))
                         (Program_to [Atom [x80]; Atom [x01]])].
Proof.
  apply (@parsed_pairs_match Sample.helpers (Sample.description Sample.raw_entry)
           (mkSpendBundle
              [mkCoinSolution (mkCoin [x00] [x01; x80] (VInt 5))
                              (Program_to [Atom [x80]; Atom [x01]])]
              G2Element_infinity)).
  reflexivity.
Defined.

Lemma one_coin_solution_per_entry_witness :
  List.length [mkCoinSolution (mkCoin [x00] [x01; x80] (VInt 5))
                              (Program_to [Atom [x80]; Atom [x01]])]
  = 1%nat.
Proof.
  refine (@one_coin_solution_per_entry Sample.helpers
            (Sample.description (Sample.other_entry ++ ", " ++ Sample.raw_entry))
            (VDict [("spends",
               VList [VDict [("memo", VStr "hello")];
                      VDict [("input_coin",
                              VDict [("parent_id", VStr "00");
                                     ("puzzle_hash", VStr "0180");
                                     ("amount", VInt 5)]);
                             ("puzzle_reveal", VStr "80");
                             ("solution", VStr "01")]])])
            _
            (mkSpendBundle
               [mkCoinSolution (mkCoin [x00] [x01; x80] (VInt 5))
                               (Program_to [Atom [x80]; Atom [x01]])]
               G2Element_infinity)
            _ eq_refl _).
  - vm_compute. reflexivity.
  - reflexivity.
Defined.

Lemma bundle_of_concatenation_witness :
  @spend_bundle_of_json Sample.helpers
    (VDict [("spends", VList [Sample.parsed Sample.raw_entry;
                              Sample.parsed Sample.other_entry;
                              Sample.parsed Sample.descriptive_entry])])
  = Ok (mkSpendBundle
          (coin_solutions (Sample.bundle_of (Sample.description Sample.raw_entry))
           ++ coin_solutions
                (Sample.bundle_of (Sample.description Sample.descriptive_entry)))
          G2Element_infinity).
Proof.
  apply (@bundle_of_concatenation Sample.helpers
           (VDict [("spends", VList [Sample.parsed Sample.raw_entry;
                                     Sample.parsed Sample.other_entry])])
           (VDict [("spends", VList [Sample.parsed Sample.descriptive_entry])])
           _
           [Sample.parsed Sample.raw_entry; Sample.parsed Sample.other_entry]
           [Sample.parsed Sample.descriptive_entry]);
    reflexivity.
Defined.

Lemma several_coins_never_parse_witness :
  @create_unsigned_tx_from_json Sample.helpers
    (Sample.description Sample.two_coin_entry)
  <> Ok (mkSpendBundle [] G2Element_infinity).
Proof.
  apply (@several_coins_never_parse Sample.helpers
           (Sample.description Sample.two_coin_entry)
           (Sample.parsed (Sample.description Sample.two_coin_entry))
           [Sample.parsed Sample.two_coin_entry]
           (match Sample.parsed Sample.two_coin_entry with
            | VDict d => d
            | _ => []
            end)
           (match getitem (Sample.parsed Sample.two_coin_entry) "input_coins" with
            | Ok (VList l) => l
            | _ => []
            end)).
  - reflexivity.
  - reflexivity.
  - left. reflexivity.
  - reflexivity.
  - reflexivity.
  - vm_compute. lia.
Defined.

Lemma overspending_entry_raises_witness :
  @descriptive_form Sample.helpers (Sample.parsed Sample.exact_entry)
  = Err (ValueError_amounts 100 100).
Proof.
  eapply (@overspending_entry_raises Sample.helpers
            (Sample.parsed Sample.exact_entry) _ _ _ _ [] _ _ [100] [100]);
    try reflexivity.
  simpl. lia.
Defined.

Lemma entry_without_coins_raises_witness :
  @descriptive_form Sample.helpers (Sample.parsed Sample.coinless_entry)
  = Err ValueError_no_inputs.
Proof.
  eapply (@entry_without_coins_raises Sample.helpers
            (Sample.parsed Sample.coinless_entry)); reflexivity.
Defined.

Lemma raw_form_checks_puzzle_witness :
  @raw_form Sample.helpers (Sample.parsed Sample.raw_entry_mismatched)
  = Err AssertionError_puzzle_reveal.
Proof.
  eapply (@raw_form_checks_puzzle Sample.helpers
            (Sample.parsed Sample.raw_entry_mismatched)); try reflexivity.
  vm_compute. discriminate.
Defined.

Lemma hex_layer_round_trip_witness :
  exists s, @encode_spendbundle _ Sample.streamable Sample.bundle0 = Ok s
            /\ @decode_spendbundle _ Sample.streamable s = Ok Sample.bundle0.
Proof.
  apply (@hex_layer_round_trip _ Sample.streamable Sample.bundle0
           (Sample.bytes_of Sample.bundle0)); reflexivity.
Defined.

Lemma dangling_character_witness :
  @decode_spendbundle _ Sample.streamable
    (Sample.encoding_of Sample.bundle0 ++ "0")
  = if is_space "0"
    then @decode_spendbundle _ Sample.streamable (Sample.encoding_of Sample.bundle0)
    else Err ValueError_fromhex.
Proof.
  apply (@dangling_character _ Sample.streamable Sample.bundle0). reflexivity.
Defined.

Lemma unknown_command_exits_witness :
  @handler _ Sample.streamable Sample.wallet "frobnicate" (Some ["x"])
  = ([HelpPrinted], inr (Exited 1)).
Proof.
  apply unknown_command_exits. simpl. intuition discriminate.
Defined.

Lemma wrong_argument_count_exits_witness :
  @handler _ Sample.streamable Sample.wallet "view-coins" (Some [])
  = ([Printed (String "010"%char
                 ("Too few" ++ " arguments to command 'chia tx " ++ "view-coins"
                            ++ "'"));
      HelpPrinted],
     inr (Exited 1)).
Proof.
  apply (@wrong_argument_count_exits _ Sample.streamable Sample.wallet
           "view-coins" (Some [])).
  - simpl. auto 10.
  - simpl. lia.
Defined.

Lemma only_get_address_unrecognised_witness :
  @handler _ Sample.streamable Sample.wallet "get-address" (Some ["x"])
  = ([Printed ("command '" ++ "get-address" ++ "' is not recognised")],
     inr (Exited 1))
  <-> "get-address" = "get-address".
Proof.
  apply only_get_address_unrecognised. simpl. auto 10.
Defined.

Lemma parse_failure_ends_run_witness :
  @handler _ Sample.streamable Sample.wallet "sign"
    (Some [Sample.description Sample.raw_entry_mismatched])
  = ([], inr (Failed AssertionError_puzzle_reveal)).
Proof.
  apply parse_failure_ends_run.
  - simpl. auto.
  - reflexivity.
Defined.

Lemma only_push_pushes_witness :
  forallb (fun e => negb (is_push e))
    (fst (@handler _ Sample.streamable Sample.wallet "sign"
            (Some [Sample.description Sample.sized_entry])))
  = true.
Proof.
  apply only_push_pushes. discriminate.
Defined.

Lemma wallet_contacted_by_three_commands_witness :
  forallb (fun e => negb (is_wallet_event e))
    (fst (@handler _ Sample.streamable Sample.wallet "create"
            (Some [Sample.description Sample.sized_entry])))
  = true.
Proof.
  apply wallet_contacted_by_three_commands. simpl. intuition discriminate.
Defined.

Lemma push_sends_signed_bundle_witness :
  @handler _ Sample.streamable Sample.wallet "push"
    (Some [Sample.description Sample.sized_entry])
  = ([Connecting;
      SignRequested
        (hex (Sample.bytes_of
                (Sample.bundle_of (Sample.description Sample.sized_entry))));
      Debugged (Sample.bundle_of (Sample.description Sample.sized_entry));
      Debugged (Sample.bundle_of (Sample.description Sample.sized_entry));
      Connecting;
      PushRequested
        (hex (Sample.bytes_of
                (Sample.bundle_of (Sample.description Sample.sized_entry))));
      Closed],
     inl tt).
Proof.
  apply (@push_sends_signed_bundle _ Sample.streamable Sample.wallet
           (Sample.description Sample.sized_entry)
           (Sample.bundle_of (Sample.description Sample.sized_entry))
           (Sample.bundle_of (Sample.description Sample.sized_entry))
           (Sample.bytes_of
              (Sample.bundle_of (Sample.description Sample.sized_entry)))
           (hex (Sample.bytes_of
                   (Sample.bundle_of (Sample.description Sample.sized_entry))))
           (Sample.bytes_of
              (Sample.bundle_of (Sample.description Sample.sized_entry))));
    reflexivity.
Defined.

Lemma decode_shows_what_create_printed_witness :
  @handler _ Sample.streamable Sample.wallet "create"
    (Some [Sample.description Sample.sized_entry])
  = ([Debugged (Sample.bundle_of (Sample.description Sample.sized_entry));
      Printed (hex (Sample.bytes_of
                      (Sample.bundle_of (Sample.description Sample.sized_entry))))],
     inl tt)
  /\ @handler _ Sample.streamable Sample.wallet "decode"
       (Some [hex (Sample.bytes_of
                     (Sample.bundle_of (Sample.description Sample.sized_entry)))])
     = ([Debugged (Sample.bundle_of (Sample.description Sample.sized_entry));
         BundlePrinted (Sample.bundle_of (Sample.description Sample.sized_entry))],
        inl tt).
Proof.
  apply (@decode_shows_what_create_printed _ Sample.streamable Sample.wallet
           (Sample.description Sample.sized_entry)
           (Sample.bundle_of (Sample.description Sample.sized_entry))
           (Sample.bytes_of
              (Sample.bundle_of (Sample.description Sample.sized_entry))));
    reflexivity.
Defined.
